(** * Gitness git adapter, protection rules and merge use case

    A shallow embedding of the blame porcelain reader, the commit listing
    and divergence parsers, the branch protection rule, the pull request
    merge controller and the commit-files controller, together with the
    properties checked against them. *)

From Stdlib Require Import ZArith String Ascii List Bool Lia DecimalString.
From stdpp Require Import base option gmap strings.
Import ListNotations.

Local Open Scope string_scope.
Local Open Scope Z_scope.

(** ** Go strings

    A Go string is a sequence of bytes; [string] is a list of [ascii]. *)
Module GoStr.

Definition tab : ascii := "009"%char.
Definition newline : ascii := "010"%char.
Definition space : ascii := " "%char.

Definition byteBetween (lo hi c : ascii) : bool :=
  ((nat_of_ascii lo <=? nat_of_ascii c) && (nat_of_ascii c <=? nat_of_ascii hi))%nat.

Definition isDigit (c : ascii) : bool := byteBetween "0" "9" c.

Definition isLowerHex (c : ascii) : bool := isDigit c || byteBetween "a" "f" c.

(** len(s) *)
Definition len (s : string) : Z := Z.of_nat (String.length s).

(** strings.HasPrefix *)
Fixpoint HasPrefix (s p : string) : bool :=
  match p, s with
  | EmptyString, _ => true
  | String a p', String b s' => Ascii.eqb a b && HasPrefix s' p'
  | String _ _, EmptyString => false
  end.

(** s[n:] for n <= len(s) *)
Fixpoint dropBytes (n : nat) (s : string) : string :=
  match n, s with
  | O, _ => s
  | S n', String _ s' => dropBytes n' s'
  | S _, EmptyString => EmptyString
  end.

(** s[:n] for n <= len(s) *)
Fixpoint takeBytes (n : nat) (s : string) : string :=
  match n, s with
  | O, _ => EmptyString
  | S n', String c s' => String c (takeBytes n' s')
  | S _, EmptyString => EmptyString
  end.

(** strings.TrimPrefix *)
Definition TrimPrefix (s p : string) : string :=
  if HasPrefix s p then dropBytes (String.length p) s else s.

(** strings.Contains *)
Fixpoint Contains (s sub : string) : bool :=
  HasPrefix s sub ||
  match s with
  | EmptyString => false
  | String _ s' => Contains s' sub
  end.

(** bytes.IndexByte / strings.IndexByte: -1 when the byte is absent. *)
Fixpoint IndexByte (s : string) (c : ascii) : Z :=
  match s with
  | EmptyString => -1
  | String b s' =>
      if Ascii.eqb b c then 0
      else let i := IndexByte s' c in if i <? 0 then -1 else i + 1
  end.

(** strings.Cut with a one-byte separator. *)
Fixpoint Cut (s : string) (sep : ascii) : string * string * bool :=
  match s with
  | EmptyString => (EmptyString, EmptyString, false)
  | String b s' =>
      if Ascii.eqb b sep then (EmptyString, s', true)
      else let '(before, after, found) := Cut s' sep in
           if found then (String b before, after, true)
           else (String b s', EmptyString, false)
  end.



(** strings.Split with a one-byte separator (never returns an empty slice). *)
Fixpoint Split (s : string) (sep : ascii) : list string :=
  match s with
  | EmptyString => [EmptyString]
  | String b s' =>
      if Ascii.eqb b sep then EmptyString :: Split s' sep
      else match Split s' sep with
           | [] => [String b EmptyString]
           | hd :: tl => String b hd :: tl
           end
  end.

(** The longest prefix whose bytes satisfy [p], and the rest. *)
Fixpoint span (p : ascii -> bool) (s : string) : string * string :=
  match s with
  | EmptyString => (EmptyString, EmptyString)
  | String b s' =>
      if p b then let '(run, rest) := span p s' in (String b run, rest)
      else (EmptyString, s)
  end.

Definition isEmpty (s : string) : bool :=
  match s with EmptyString => true | _ => false end.

End GoStr.

(** ** Go errors *)

(** gRPC status codes used by the adapter. *)
Inductive Code := NotFound | InvalidArgument | Internal | Unknown | Canceled.

(** gitrpc status of an error as the controllers read it. *)
Inductive GitStatus := StatusNotMergeable | StatusOther.

Inductive error :=
| EOF                                         (* io.EOF *)
| Plain (msg : string)                        (* errors.New, fmt.Errorf without %w *)
| Wrap (msg : string) (inner : error)         (* fmt.Errorf("msg: %w", inner) *)
| UserError (httpStatus : Z) (msg : string)   (* usererror.New(status, msg) *)
| StatusError (code : Code) (msg : string).   (* status.Error(code, msg) *)

(** usererror.BadRequest *)
Definition BadRequest (msg : string) : error := UserError 400 msg.

(** err.Error() *)
Fixpoint errorString (e : error) : string :=
  match e with
  | EOF => "EOF"
  | Plain m => m
  | Wrap m inner => m ++ ": " ++ errorString inner
  | UserError _ m => m
  | StatusError _ m => m
  end.

(** errors.Is(err, io.EOF): walks the chain of wrapped errors. *)
Fixpoint isEOF (e : error) : bool :=
  match e with
  | EOF => true
  | Wrap _ inner => isEOF inner
  | _ => false
  end.

(** ** strconv.ParseInt in base 10 *)
Module Strconv.

Inductive NumError := ErrSyntax | ErrRange.

Definition digitVal (c : ascii) : Z := Z.of_nat (nat_of_ascii c) - 48.

(** The digit loop of ParseUint(s, 10, bitSize): [maxVal] is 2^bitSize - 1;
    the first overflow stops the loop with a range error. *)
Fixpoint parseUintLoop (maxVal n : Z) (s : string) : Z * option NumError :=
  match s with
  | EmptyString => (n, None)
  | String c s' =>
      if GoStr.isDigit c then
        if n >=? (2 ^ 64 - 1) / 10 + 1 then (maxVal, Some ErrRange)
        else
          let n1 := n * 10 + digitVal c in
          if (n1 >=? 2 ^ 64) || (n1 >? maxVal) then (maxVal, Some ErrRange)
          else parseUintLoop maxVal n1 s'
      else (0, Some ErrSyntax)
  end.

Definition ParseUint (s : string) (bitSize : Z) : Z * option NumError :=
  match s with
  | EmptyString => (0, Some ErrSyntax)
  | _ => parseUintLoop (2 ^ bitSize - 1) 0 s
  end.

Definition ParseInt (s : string) (bitSize : Z) : Z * option NumError :=
  match s with
  | EmptyString => (0, Some ErrSyntax)
  | String c s' =>
      let neg := Ascii.eqb c "-" in
      let digits := if Ascii.eqb c "+" || neg then s' else s in
      let '(un, err) := ParseUint digits bitSize in
      match err with
      | Some ErrSyntax => (0, Some ErrSyntax)
      | _ =>
          let cutoff := 2 ^ (bitSize - 1) in
          if negb neg && (un >=? cutoff) then (cutoff - 1, Some ErrRange)
          else if neg && (un >? cutoff) then (- cutoff, Some ErrRange)
          else (if neg then - un else un, None)
      end
  end.


End Strconv.

(** ** gitrpc/internal/types *)

Record Identity := { Name : string; Email : string }.

(** [When] is the time as UNIX seconds. *)
Record Signature := { SigIdentity : Identity; When : Z }.

Record Commit := {
  SHA : string;
  Title : string;
  Message : string;
  Author : Signature;
  Committer : Signature
}.

Record BlamePart := { PartCommit : Commit; Lines : list string }.

Definition zeroSignature : Signature :=
  {| SigIdentity := {| Name := ""; Email := "" |}; When := 0 |}.

(** &types.Commit{SHA: sha} *)
Definition newCommit (sha : string) : Commit :=
  {| SHA := sha; Title := ""; Message := "";
     Author := zeroSignature; Committer := zeroSignature |}.

(** ** The blame porcelain reader (gitrpc/internal/gitea/blame.go) *)
Module Blame.

Import GoStr.

(** blamePorcelainHeadRE:
    [^([0-9a-f]{40}|[0-9a-f]{64}) (\d+) (\d+)( (\d+))?$].
    Returns the submatches 1 (the SHA) and 5 (the number of lines, empty
    when the optional group is absent). *)
Definition blamePorcelainHead (line : string) : option (string * string) :=
  let '(sha, r0) := span isLowerHex line in
  if ((String.length sha =? 40) || (String.length sha =? 64))%nat then
    match r0 with
    | String " " r1 =>
        let '(d1, r2) := span isDigit r1 in
        if isEmpty d1 then None
        else match r2 with
             | String " " r3 =>
                 let '(d2, r4) := span isDigit r3 in
                 if isEmpty d2 then None
                 else match r4 with
                      | EmptyString => Some (sha, EmptyString)
                      | String " " r5 =>
                          let '(d3, r6) := span isDigit r5 in
                          if isEmpty d3 then None
                          else if isEmpty r6 then Some (sha, d3) else None
                      | _ => None
                      end
             | _ => None
             end
    | _ => None
    end
  else None.

(** [has only \d+ lines$], searched anywhere in the line. *)
Definition outOfRangeAt (s : string) : bool :=
  HasPrefix s "has only " &&
  let '(digits, rest) := span isDigit (dropBytes 9 s) in
  negb (isEmpty digits) && String.eqb rest " lines".

Fixpoint blamePorcelainOutOfRangeError (s : string) : bool :=
  outOfRangeAt s ||
  match s with
  | EmptyString => false
  | String _ s' => blamePorcelainOutOfRangeError s'
  end.

Definition extractName (s : string) : string := s.

Definition lastByteIs (s : string) (c : ascii) : bool :=
  match get (String.length s - 1) s with
  | Some b => Ascii.eqb b c
  | None => false
  end.

Definition extractEmail (s : string) : string :=
  if (2 <=? String.length s)%nat && HasPrefix s "<" && lastByteIs s ">"
  then takeBytes (String.length s - 2) (dropBytes 1 s)
  else s.

(** strconv.ParseInt(s, 10, 64) with the error dropped, as UNIX seconds. *)
Definition extractTime (s : string) : Z := fst (Strconv.ParseInt s 64).

Definition setName (n : string) (g : Signature) : Signature :=
  {| SigIdentity := {| Name := n; Email := Email (SigIdentity g) |}; When := When g |}.
Definition setEmail (e : string) (g : Signature) : Signature :=
  {| SigIdentity := {| Name := Name (SigIdentity g); Email := e |}; When := When g |}.
Definition setWhen (t : Z) (g : Signature) : Signature :=
  {| SigIdentity := SigIdentity g; When := t |}.
Definition setTitle (t : string) (c : Commit) : Commit :=
  {| SHA := SHA c; Title := t; Message := Message c;
     Author := Author c; Committer := Committer c |}.
Definition setAuthor (f : Signature -> Signature) (c : Commit) : Commit :=
  {| SHA := SHA c; Title := Title c; Message := Message c;
     Author := f (Author c); Committer := Committer c |}.
Definition setCommitter (f : Signature -> Signature) (c : Commit) : Commit :=
  {| SHA := SHA c; Title := Title c; Message := Message c;
     Author := Author c; Committer := f (Committer c) |}.

(** parseBlameHeaders: the commit is updated in place in the source. *)
Definition parseBlameHeaders (line : string) (commit : Commit) : Commit :=
  if HasPrefix line "summary " then
    setTitle (extractName (dropBytes 8 line)) commit
  else if HasPrefix line "author " then
    setAuthor (setName (extractName (dropBytes 7 line))) commit
  else if HasPrefix line "author-mail " then
    setAuthor (setEmail (extractEmail (dropBytes 12 line))) commit
  else if HasPrefix line "author-time " then
    setAuthor (setWhen (extractTime (dropBytes 12 line))) commit
  else if HasPrefix line "committer " then
    setCommitter (setName (extractName (dropBytes 10 line))) commit
  else if HasPrefix line "committer-mail " then
    setCommitter (setEmail (extractEmail (dropBytes 15 line))) commit
  else if HasPrefix line "committer-time " then
    setCommitter (setWhen (extractTime (dropBytes 15 line))) commit
  else commit.

(** The reader. [scanner] holds the lines the bufio.Scanner has yet to
    deliver and [scanErr] what scanner.Err() reports once they are used up
    (None at a clean end of the pipe); [errReader] is the content of the
    stderr buffer. *)
Record BlameReader := {
  scanner : list string;
  scanErr : option error;
  lastLine : string;
  commitCache : gmap string Commit;
  errReader : string
}.

Definition withInput (r : BlameReader) (last : string) (rest : list string) : BlameReader :=
  {| scanner := rest; scanErr := scanErr r; lastLine := last;
     commitCache := commitCache r; errReader := errReader r |}.

Definition withCache (r : BlameReader) (cache : gmap string Commit) : BlameReader :=
  {| scanner := scanner r; scanErr := scanErr r; lastLine := lastLine r;
     commitCache := cache; errReader := errReader r |}.

Definition withStderr (r : BlameReader) (e : string) : BlameReader :=
  {| scanner := scanner r; scanErr := scanErr r; lastLine := lastLine r;
     commitCache := commitCache r; errReader := e |}.

(** The for r.scanner.Scan() loop of nextLine: skips empty lines. *)
Fixpoint scanNonEmpty (ls : list string) : option (string * list string) :=
  match ls with
  | [] => None
  | l :: rest => if isEmpty l then scanNonEmpty rest else Some (l, rest)
  end.

Definition nextLine (r : BlameReader) : (error + string) * BlameReader :=
  if negb (isEmpty (lastLine r)) then
    (inr (lastLine r), withInput r "" (scanner r))
  else
    match scanNonEmpty (scanner r) with
    | Some (line, rest) => (inr line, withInput r "" rest)
    | None =>
        (inl (match scanErr r with Some e => e | None => EOF end),
         withInput r "" [])
    end.

Definition unreadLine (r : BlameReader) (line : string) : BlameReader :=
  withInput r line (scanner r).

(** The local variables of NextPart. [commit] is a pointer in the source:
    [alias] is the key of the cache entry it points to when it was taken
    from the cache, so that updates through it reach the cache. *)
Record Locals := {
  commit : option Commit;
  alias : option string;
  lines : list string
}.

Definition noLocals : Locals := {| commit := None; alias := None; lines := [] |}.

(** The cache as the pointer updates made so far leave it. *)
Definition syncCache (st : Locals) (cache : gmap string Commit) : gmap string Commit :=
  match alias st, commit st with
  | Some k, Some c => <[k := c]> cache
  | _, _ => cache
  end.

Inductive LoopExit :=
| Returned (part : BlamePart) (r : BlameReader)     (* return inside the loop *)
| Broke (err : error) (st : Locals) (r : BlameReader) (* break *)
| Running.                                           (* out of iterations *)

(** One iteration of the loop body after a line was read. The capacity
    hint given to make() for [lines] does not change the value of the
    slice; the allocation itself is not modelled. *)
Definition onLine (line : string) (st : Locals) (r : BlameReader)
  : (BlamePart * BlameReader) + Locals :=
  match blamePorcelainHead line with
  | Some (sha, lineCount) =>
      match commit st with
      | None =>
          let lines' := if isEmpty lineCount then lines st else [] in
          match commitCache r !! sha with
          | Some c => inr {| commit := Some c; alias := Some sha; lines := lines' |}
          | None => inr {| commit := Some (newCommit sha); alias := None; lines := lines' |}
          end
      | Some c =>
          if negb (String.eqb sha (SHA c)) then
            inl ({| PartCommit := c; Lines := lines st |},
                 withCache (unreadLine r line)
                           (<[SHA c := c]> (syncCache st (commitCache r))))
          else inr st
      end
  | None =>
      match commit st with
      | None => inr st
      | Some c =>
          match line with
          | String b content =>
              if Ascii.eqb b tab then
                inr {| commit := Some c; alias := alias st; lines := lines st ++ [content] |}
              else
                inr {| commit := Some (parseBlameHeaders line c); alias := alias st;
                       lines := lines st |}
          | EmptyString => inr st
          end
      end
  end.

Fixpoint loop (fuel : nat) (st : Locals) (r : BlameReader) : LoopExit :=
  match fuel with
  | O => Running
  | S fuel' =>
      match nextLine r with
      | (inl err, r') => Broke err st (withCache r' (syncCache st (commitCache r')))
      | (inr line, r') =>
          match onLine line st r' with
          | inl (part, r'') => Returned part r''
          | inr st' => loop fuel' st' r'
          end
      end
  end.

(** The classification of the stderr content. *)
Definition classifyStderr (errRaw : string) : error :=
  let idx := IndexByte errRaw newline in
  let line := if idx >? 0 then takeBytes (Z.to_nat idx) errRaw else errRaw in
  let line := TrimPrefix line "fatal: " in
  if Contains line "no such path" then StatusError NotFound line
  else if Contains line "bad revision" then StatusError NotFound line
  else if blamePorcelainOutOfRangeError line then StatusError InvalidArgument line
  else StatusError Unknown line.

(** The part of NextPart after the loop. io.ReadAll drains the buffer. *)
Definition afterLoop (err : error) (st : Locals) (r : BlameReader)
  : option BlamePart * option error * BlameReader :=
  let errRaw := errReader r in
  let r := withStderr r "" in
  if (0 <? len errRaw) then (None, Some (classifyStderr errRaw), r)
  else if negb (isEOF err) then (None, Some (StatusError Internal (errorString err)), r)
  else
    match commit st with
    | Some c =>
        if (0 <? Z.of_nat (length (lines st)))
        then (Some {| PartCommit := c; Lines := lines st |}, Some err, r)
        else (None, Some err, r)
    | None => (None, Some err, r)
    end.

(** Every iteration uses up the pushed back line or a scanner line, so
    two more iterations than there are scanner lines always suffice and
    the [Running] case is never taken (BlameProofs.NextPart_loop_ends). *)
Definition NextPart (r : BlameReader) : option BlamePart * option error * BlameReader :=
  match loop (2 + length (scanner r)) noLocals r with
  | Returned part r' => (Some part, None, r')
  | Broke err st r' => afterLoop err st r'
  | Running => (None, None, r)
  end.

End Blame.

(** ** Commit listing and divergence (package gitea, commit adapter) *)

(** The outcome of a Go call that can return an error or panic. *)
Inductive Res (A : Type) :=
| Done (a : A)
| Fail (e : error)
| Panicked.
Arguments Done {A} a.
Arguments Fail {A} e.
Arguments Panicked {A}.

Record PathRenameDetails := {
  OldPath : string;
  NewPath : string;
  CommitSHABefore : string;
  CommitSHAAfter : string
}.



Module CommitAdapter.

Import GoStr.


(** fmt.Sprint of an integer *)
Definition itoa (x : Z) : string := DecimalString.NilZero.string_of_int (Z.to_int x).

Section Adapter.

(** bytes.TrimSpace of the Go library. *)
Variable TrimSpace : string -> string.

(** gitea.NewCommand(ctx, args...).RunStdString / RunStdBytes in the
    repository: stdout and stderr, or the run error with stderr. *)
Variable runGit : list string -> (error * string) + (string * string).

(** processGiteaErrorf(err, message) *)
Variable processGiteaErrorf : error -> string -> error.

Definition parseLinesToSlice (output : string) : list string :=
  if (len output =? 0) then []
  else Split (TrimSpace output) newline.

(** The change type and, for a line of three fields, the old and the new
    path, of the first line that contains [filePath]. *)
Fixpoint getFileChangeTypeFromLog (changeStrings : list string) (filePath : string)
  : error + (string * option string * option string) :=
  match changeStrings with
  | [] => inl (Plain "could not parse change for the file")
  | changeString :: rest =>
      if Contains changeString filePath then
        match Split changeString tab with
        | [a; b; c] => inr (a, Some b, Some c)
        | a :: _ => inr (a, None, None)
        | [] => inr (EmptyString, None, None)
        end
      else getFileChangeTypeFromLog rest filePath
  end.

Definition noRename : PathRenameDetails :=
  {| OldPath := ""; NewPath := ""; CommitSHABefore := ""; CommitSHAAfter := "" |}.

(** Returns the refs git log was run for, and the outcome. Dereferencing
    the nil old or new path panics. *)
Definition giteaGetRenameDetails (ref path : string)
  : list string * Res PathRenameDetails :=
  ([ref],
   match runGit ["log"; ref; "--name-status"; "--pretty=format:"; "-1"] with
   | inl (runErr, _) => Fail (Wrap "failed to trigger log command" runErr)
   | inr (stdout, _) =>
       match getFileChangeTypeFromLog (parseLinesToSlice stdout) path with
       | inl err => Fail err
       | inr (changeType, oldPath, newPath) =>
           if HasPrefix changeType "R" then
             match oldPath, newPath with
             | Some o, Some n =>
                 Done {| OldPath := o; NewPath := n;
                         CommitSHABefore := ""; CommitSHAAfter := "" |}
             | _, _ => Panicked
             end
           else Done noRename
       end
   end).

Definition isRename (d : PathRenameDetails) : bool :=
  negb (isEmpty (NewPath d)) || negb (isEmpty (OldPath d)).

Definition setBefore (sha : string) (d : PathRenameDetails) : PathRenameDetails :=
  {| OldPath := OldPath d; NewPath := NewPath d;
     CommitSHABefore := sha; CommitSHAAfter := CommitSHAAfter d |}.

Definition setAfter (sha : string) (d : PathRenameDetails) : PathRenameDetails :=
  {| OldPath := OldPath d; NewPath := NewPath d;
     CommitSHABefore := CommitSHABefore d; CommitSHAAfter := sha |}.

(** commits[len(commits)-1] for a non-empty slice whose first element is [c]. *)
Definition lastCommit (c : Commit) (rest : list Commit) : Commit := List.last rest c.

(** Returns the refs git log was run for, in order, and the outcome. *)
Definition getRenameDetails (commits : list Commit) (path : string)
  : list string * Res (list PathRenameDetails) :=
  match commits with
  | [] => ([], Done [])
  | first :: rest =>
      let '(q1, res1) := giteaGetRenameDetails (SHA first) path in
      match res1 with
      | Fail err => (q1, Fail err)
      | Panicked => (q1, Panicked)
      | Done renameDetails =>
          let renameDetailsList :=
            if isRename renameDetails then [setBefore (SHA first) renameDetails] else [] in
          match rest with
          | [] => (q1, Done renameDetailsList)
          | _ :: _ =>
              let lastSHA := SHA (lastCommit first rest) in
              let '(q2, res2) := giteaGetRenameDetails lastSHA path in
              match res2 with
              | Fail err => ((q1 ++ q2)%list, Fail err)
              | Panicked => ((q1 ++ q2)%list, Panicked)
              | Done renameDetailsLast =>
                  ((q1 ++ q2)%list,
                   Done (if isRename renameDetailsLast
                         then (renameDetailsList ++ [setAfter lastSHA renameDetailsLast])%list
                         else renameDetailsList))
              end
          end
      end
  end.

(** The condition of the loop in cleanupCommitsForRename. *)
Definition isBeforeSide (first : Commit) (path : string) (d : PathRenameDetails) : bool :=
  String.eqb (SHA first) (CommitSHABefore d) && String.eqb path (OldPath d).

Definition cleanupCommitsForRename
  (commits : list Commit) (renameDetails : list PathRenameDetails) (path : string)
  : list Commit :=
  match commits with
  | [] => commits
  | first :: rest =>
      if existsb (isBeforeSide first path) renameDetails then rest else commits
  end.

(** The part of ListCommits after the page of commits was read; [commits]
    is the page as listCommitSHAs, getGiteaCommits and mapGiteaCommit
    produce it, [path] is filter.Path. *)
Definition ListCommits (commits : list Commit) (path : string)
  : list string * Res (list Commit * list PathRenameDetails) :=
  if negb (len path =? 0) then
    let '(q, res) := getRenameDetails commits path in
    match res with
    | Fail err => (q, Fail err)
    | Panicked => (q, Panicked)
    | Done renameDetailsList =>
        (q, Done (cleanupCommitsForRename commits renameDetailsList path, renameDetailsList))
    end
  else ([], Done (commits, [])).




End Adapter.

End CommitAdapter.

(** ** Platform types (package types) *)

Record Principal := {
  PrincipalID : Z;
  DisplayName : string;
  PrincipalEmail : string
}.

Record Session := { SessionPrincipal : Principal }.

Record Repository := {
  RepoID : Z;
  GitUID : string;
  RepoPath : string
}.

Inductive PullReqState := PullReqStateOpen | PullReqStateMerged | PullReqStateClosed.

Inductive MergeCheckStatus :=
| MergeCheckStatusUnchecked
| MergeCheckStatusMergeable
| MergeCheckStatusConflict.

(** enum.MergeMethod is a string type. *)
Definition MergeMethod := string.

Record PullReq := {
  PullReqID : Z;
  Number : Z;
  PullReqTitle : string;
  State : PullReqState;
  IsDraft : bool;
  Merged : option Z;
  MergedBy : option Z;
  PullReqMergeMethod : option MergeMethod;
  SourceRepoID : Z;
  TargetRepoID : Z;
  SourceBranch : string;
  TargetBranch : string;
  SourceSHA : string;
  PRMergeCheckStatus : MergeCheckStatus;
  MergeTargetSHA : option string;
  MergeBaseSHA : string;
  MergeSHA : option string;
  MergeConflicts : list string;
  ActivitySeq : Z
}.

Record RuleInfo := { RuleUID : string }.

Record Violation := { ViolationCode : string; ViolationMessage : string }.

Record RuleViolations := {
  Rule : RuleInfo;
  Bypassed : bool;
  Violations : list Violation
}.

Definition setBypassed (b : bool) (v : RuleViolations) : RuleViolations :=
  {| Rule := Rule v; Bypassed := b; Violations := Violations v |}.

(** Rows of other stores that the controllers only hand on. *)
Definition Reviewer := string.
Definition CheckResult := string.
Definition CodeOwnersEvaluation := string.

(** ** Protection rules (app/services/protection) *)
Module Protection.

Inductive RefType := RefTypeRaw | RefTypeBranch | RefTypeTag.

Record MergeVerifyInput := {
  MVActor : option Principal;
  MVAllowBypass : bool;
  MVIsRepoOwner : bool;
  MVTargetRepo : Repository;
  MVSourceRepo : Repository;
  MVPullReq : PullReq;
  MVReviewers : list Reviewer;
  MVMethod : MergeMethod;
  MVCheckResults : list CheckResult;
  MVCodeOwners : option CodeOwnersEvaluation
}.

Record MergeVerifyOutput := { DeleteSourceBranch : bool }.

Record RefChangeVerifyInput := {
  RCActor : option Principal;
  RCAllowBypass : bool;
  RCIsRepoOwner : bool;
  RCRefType : RefType;
  RCRefNames : list string
}.

Record CanPushInput := {
  CPActor : option Principal;
  CPIsSpaceOwner : bool;
  CPRepo : Repository;
  CPBranchNames : list string
}.

(** Modelled from the spec: RuleViolations.IsCritical and
    protection.IsCritical are not among the sources. A rule's violations
    are critical when there is a violation and the rule evaluation is not
    bypassed; a result is critical when any of its entries is. *)
Definition ruleIsCritical (v : RuleViolations) : bool :=
  negb (Bypassed v) && negb (Nat.eqb (length (Violations v)) 0).

Definition IsCritical (violations : list RuleViolations) : bool :=
  existsb ruleIsCritical violations.

(** The set of rules of a repository, as the controllers use it. *)
Record RuleSet := {
  MergeVerify :
    MergeVerifyInput -> MergeVerifyOutput * list RuleViolations * option error;
  CanPush :
    CanPushInput -> list RuleViolations * option error
}.

Section BranchRule.

(** The three parts of a branch rule with their methods. *)
Variables DefBypass DefPullReq DefLifecycle : Type.
Variable bypassMatches : DefBypass -> option Principal -> bool -> bool.
Variable pullReqMergeVerify :
  DefPullReq -> MergeVerifyInput ->
  MergeVerifyOutput * list RuleViolations * option error.
Variable lifecycleRefChangeVerify :
  DefLifecycle -> RefChangeVerifyInput -> list RuleViolations * option error.

Record Branch := {
  Bypass : DefBypass;
  PullReqDef : DefPullReq;
  Lifecycle : DefLifecycle
}.

Definition BranchMergeVerify (v : Branch) (i : MergeVerifyInput)
  : MergeVerifyOutput * list RuleViolations * option error :=
  let '(out, violations, err) := pullReqMergeVerify (PullReqDef v) i in
  match err with
  | Some _ => (out, violations, err)
  | None =>
      let bypassed := MVAllowBypass i && bypassMatches (Bypass v) (MVActor i) (MVIsRepoOwner i) in
      (out, map (setBypassed bypassed) violations, err)
  end.

Definition isBranch (t : RefType) : bool :=
  match t with RefTypeBranch => true | _ => false end.

Definition BranchRefChangeVerify (v : Branch) (i : RefChangeVerifyInput)
  : list RuleViolations * option error :=
  if negb (isBranch (RCRefType i)) || Nat.eqb (length (RCRefNames i)) 0 then ([], None)
  else
    let '(violations, err) := lifecycleRefChangeVerify (Lifecycle v) i in
    let bypassed := RCAllowBypass i && bypassMatches (Bypass v) (RCActor i) (RCIsRepoOwner i) in
    (map (setBypassed bypassed) violations, err).

End BranchRule.

Arguments Bypass {DefBypass DefPullReq DefLifecycle} _.
Arguments PullReqDef {DefBypass DefPullReq DefLifecycle} _.
Arguments Lifecycle {DefBypass DefPullReq DefLifecycle} _.
Arguments BranchMergeVerify {DefBypass DefPullReq DefLifecycle}
  bypassMatches pullReqMergeVerify v i.
Arguments BranchRefChangeVerify {DefBypass DefPullReq DefLifecycle}
  bypassMatches lifecycleRefChangeVerify v i.

End Protection.

(** ** Calls to collaborators

    A controller run is a value of [Eff E R A]: the calls made so far, in
    order, and either the value [R] the controller has returned early or
    the value [A] it goes on with. *)
Module Eff.

Definition Eff (E R A : Type) : Type := list E * (R + A).

Definition pure {E R A} (a : A) : Eff E R A := ([], inr a).

Definition bind {E R A B} (m : Eff E R A) (k : A -> Eff E R B) : Eff E R B :=
  match m with
  | (t, inl r) => (t, inl r)
  | (t, inr a) => let '(t', x) := k a in ((t ++ t')%list, x)
  end.

(** return r *)
Definition exit {E R A} (r : R) : Eff E R A := ([], inl r).

(** A call to a collaborator, recorded. *)
Definition call {E R A} (ev : E) (result : A) : Eff E R A := ([ev], inr result).

(** if err != nil { return onErr(err) } *)
Definition check {E R A} (result : error + A) (onErr : error -> R) : Eff E R A :=
  match result with
  | inl err => exit (onErr err)
  | inr a => pure a
  end.

(** if cond { return r } *)
Definition exitIf {E R} (cond : bool) (r : R) : Eff E R unit :=
  if cond then exit r else pure tt.

(** The calls made and the value returned by a whole function body. *)
Definition run {E R} (m : Eff E R R) : list E * R :=
  match m with
  | (t, inl r) => (t, r)
  | (t, inr r) => (t, r)
  end.

(** defer: [ev] is recorded on every way out of [m]. *)
Definition defer {E R A} (ev : E) (m : Eff E R A) : Eff E R A :=
  let '(t, x) := m in ((t ++ [ev])%list, x).

End Eff.

Declare Scope eff_scope.
Delimit Scope eff_scope with eff.
Notation "x <- m ;; k" := (Eff.bind m (fun x => k))
  (at level 100, m at next level, right associativity) : eff_scope.
Notation "m ;;; k" := (Eff.bind m (fun _ => k))
  (at level 100, right associativity) : eff_scope.

(** ** gitrpc parameters *)

Record WriteParams := {
  Actor : Identity;
  RepoUID : string;
  EnvVars : gmap string string
}.

Record MergeParams := {
  MPWriteParams : WriteParams;
  BaseBranch : string;
  HeadRepoUID : string;
  HeadBranch : string;
  MPTitle : string;
  MPMessage : string;
  MPCommitter : option Identity;
  MPCommitterDate : option Z;
  MPAuthor : option Identity;
  MPAuthorDate : option Z;
  MPRefType : option Protection.RefType;   (* gitrpcenum.RefType, same cases *)
  MPRefName : string;
  HeadExpectedSHA : string;
  MPMethod : MergeMethod
}.

Record MergeOutput := {
  MOBaseSHA : string;
  MOHeadSHA : string;
  MOMergeBaseSHA : string;
  MOMergeSHA : string
}.

Record DeleteBranchParams := {
  DBWriteParams : WriteParams;
  BranchName : string
}.

(** ** Write parameters (app/api/controller/util.go) *)
Module ControllerUtil.

Section WriteParams.

(** urlProvider.GetInternalAPIURL() *)
Variable internalAPIURL : string.

(** githook.GenerateEnvironmentVariables(ctx, apiBaseURL, repoID,
    principalID, disabled, internal) *)
Variable GenerateEnvironmentVariables :
  string -> Z -> Z -> bool -> bool -> error + gmap string string.

Definition createRPCWriteParams (session : Session) (repo : Repository) (isInternal : bool)
  : error + WriteParams :=
  match GenerateEnvironmentVariables internalAPIURL (RepoID repo)
          (PrincipalID (SessionPrincipal session)) false isInternal with
  | inl err => inl (Wrap "failed to generate git hook environment variables" err)
  | inr envVars =>
      inr {| Actor := {| Name := DisplayName (SessionPrincipal session);
                         Email := PrincipalEmail (SessionPrincipal session) |};
             RepoUID := GitUID repo;
             EnvVars := envVars |}
  end.

Definition CreateRPCExternalWriteParams (session : Session) (repo : Repository) :=
  createRPCWriteParams session repo false.

Definition CreateRPCInternalWriteParams (session : Session) (repo : Repository) :=
  createRPCWriteParams session repo true.

End WriteParams.

End ControllerUtil.

(** ** The merge controller (package pullreq) *)
Module PullReqController.

Import Eff Protection.

Record MergeInput := {
  Method : MergeMethod;
  InSourceSHA : string;
  BypassRules : bool;
  DryRun : bool
}.

Record MergeResponse := {
  RespDryRun : bool;
  RespSHA : string;
  BranchDeleted : bool;
  RespConflictFiles : list string;
  RespRuleViolations : list RuleViolations
}.

Record MergeViolations := {
  ConflictFiles : list string;
  MVRuleViolations : list RuleViolations
}.

Record ActivityPayloadMerge := {
  APMergeMethod : MergeMethod;
  APMergeSHA : string;
  APTargetSHA : string;
  APSourceSHA : string
}.

(** What Merge returns: the response, the violations and the error. *)
Definition MergeReturn : Type :=
  option MergeResponse * option MergeViolations * option error.

Definition failWith (e : error) : MergeReturn := (None, None, Some e).

(** The calls Merge makes to its collaborators. The re-read of the pull
    request and the verification of the rules are recorded with their
    answers. *)
Inductive Call :=
| GetRepoCheckAccess (repoRef : string)
| NewMutexForPR (gitUID : string) (pr : Z)
| MutexLock
| MutexUnlock
| PullReqFindByNumber (repoID number : Z) (found : error + PullReq)
| ReviewerList (prID : Z)
| RepoFind (repoID : Z)
| IsRepoOwner (repo : Repository)
| CheckListResults (repoID : Z) (sha : string)
| ProtectionForRepository (repoID : Z)
| CodeOwnersEvaluate (repo : Repository)
| RulesMergeVerify (i : MergeVerifyInput)
    (answer : MergeVerifyOutput * list RuleViolations * option error)
| GitMerge (p : MergeParams)
| PullReqUpdateOptLock (pr : PullReq)
| ActivityCreateWithPayload (pr : PullReq) (principalID : Z) (payload : ActivityPayloadMerge)
| ReportMerged (pr : PullReq) (payload : ActivityPayloadMerge)
| GitDeleteBranch (p : DeleteBranchParams)
| LogError (msg : string).

(** The collaborators of the controller: what each call answers. *)
Record Env := {
  sanitize : MergeMethod -> MergeMethod * bool;   (* enum.MergeMethod.Sanitize *)
  mergeMethodSquash : MergeMethod;                (* gitrpcenum.MergeMethodSquash *)
  getRepoCheckAccess : Session -> string -> error + Repository;
  newMutexForPR : string -> Z -> option error;
  mutexLock : option error;
  pullreqFindByNumber : Z -> Z -> error + PullReq;
  reviewerList : Z -> error + list Reviewer;
  internalAPIURL : string;
  generateEnvironmentVariables :
    string -> Z -> Z -> bool -> bool -> error + gmap string string;
  repoFind : Z -> error + Repository;
  isRepoOwner : Session -> Repository -> error + bool;
  checkListResults : Z -> string -> error + list CheckResult;
  protectionForRepository : Z -> error + RuleSet;
  codeOwnersEvaluate :
    Repository -> PullReq -> list Reviewer -> option CodeOwnersEvaluation * option error;
  isCodeOwnersNotFound : error -> bool;      (* errors.Is(err, codeowners.ErrNotFound) *)
  gitMerge : MergeParams -> error + MergeOutput;
  errorStatus : error -> GitStatus;          (* gitrpc.ErrorStatus *)
  asConflictFilesError : error -> list string;
  timeNow : Z;                               (* time.Now() in milliseconds *)
  pullreqUpdateOptLock : PullReq -> (PullReq -> PullReq) -> error + PullReq;
  activityCreateWithPayload : PullReq -> Z -> ActivityPayloadMerge -> option error;
  gitDeleteBranch : DeleteBranchParams -> option error;
  rpcIdentityFromPrincipal : Principal -> Identity;
  systemServicePrincipal : Principal         (* bootstrap.NewSystemServiceSession().Principal *)
}.

Definition isNotMergeable (s : GitStatus) : bool :=
  match s with StatusNotMergeable => true | StatusOther => false end.

Definition isOpen (s : PullReqState) : bool :=
  match s with PullReqStateOpen => true | _ => false end.

Definition isUnchecked (s : MergeCheckStatus) : bool :=
  match s with MergeCheckStatusUnchecked => true | _ => false end.

Definition isSome {A} (o : option A) : bool :=
  match o with Some _ => true | None => false end.

(** The function given to UpdateOptLock. *)
Definition markMerged (env : Env) (session : Session) (method : MergeMethod)
  (mergeOutput : MergeOutput) (pr : PullReq) : PullReq :=
  {| PullReqID := PullReqID pr;
     Number := Number pr;
     PullReqTitle := PullReqTitle pr;
     State := PullReqStateMerged;
     IsDraft := IsDraft pr;
     Merged := Some (timeNow env);
     MergedBy := Some (PrincipalID (SessionPrincipal session));
     PullReqMergeMethod := Some method;
     SourceRepoID := SourceRepoID pr;
     TargetRepoID := TargetRepoID pr;
     SourceBranch := SourceBranch pr;
     TargetBranch := TargetBranch pr;
     SourceSHA := SourceSHA pr;
     PRMergeCheckStatus := MergeCheckStatusMergeable;
     MergeTargetSHA := Some (MOBaseSHA mergeOutput);
     MergeBaseSHA := MOMergeBaseSHA mergeOutput;
     MergeSHA := Some (MOMergeSHA mergeOutput);
     MergeConflicts := [];
     ActivitySeq := ActivitySeq pr + 1 |}.

Definition itoa (x : Z) : string := DecimalString.NilZero.string_of_int (Z.to_int x).

Definition mergeTitle (env : Env) (method : MergeMethod) (pr : PullReq)
  (sourceRepo : Repository) : string :=
  if String.eqb method (mergeMethodSquash env) then
    PullReqTitle pr ++ " (#" ++ itoa (Number pr) ++ ")"
  else
    "Merge branch '" ++ SourceBranch pr ++ "' of " ++ RepoPath sourceRepo
    ++ " (#" ++ itoa (Number pr) ++ ")".

Local Open Scope eff_scope.

(** The write parameters of the source repository, and the source
    repository, in the order the source assigns them. *)
Definition sourceParams (env : Env) (session : Session)
  (targetRepo : Repository) (targetWriteParams : WriteParams) (pr : PullReq)
  : Eff Call MergeReturn (Repository * WriteParams) :=
  let sourceRepo := targetRepo in
  let sourceWriteParams := targetWriteParams in
  if negb (SourceRepoID pr =? TargetRepoID pr)%Z then
    sourceWriteParams <-
      check (ControllerUtil.CreateRPCInternalWriteParams
               (internalAPIURL env) (generateEnvironmentVariables env) session sourceRepo)
            (fun err => failWith (Wrap "failed to create RPC write params" err)) ;;
    found <- call (RepoFind (SourceRepoID pr)) (repoFind env (SourceRepoID pr)) ;;
    sourceRepo <-
      check found (fun err => failWith (Wrap "failed to get source repository" err)) ;;
    pure (sourceRepo, sourceWriteParams)
  else pure (sourceRepo, sourceWriteParams).

(** The part of Merge for in.DryRun. *)
Definition dryRun (env : Env) (i : MergeInput) (pr : PullReq)
  (sourceRepo : Repository) (targetWriteParams : WriteParams)
  (ruleOut : MergeVerifyOutput) (violations : list RuleViolations)
  : Eff Call MergeReturn MergeReturn :=
  let out conflicts :=
    {| RespDryRun := true; RespSHA := ""; BranchDeleted := DeleteSourceBranch ruleOut;
       RespConflictFiles := conflicts; RespRuleViolations := violations |} in
  if isUnchecked (PRMergeCheckStatus pr) then
    let params :=
      {| MPWriteParams := targetWriteParams;
         BaseBranch := TargetBranch pr;
         HeadRepoUID := GitUID sourceRepo;
         HeadBranch := SourceBranch pr;
         MPTitle := ""; MPMessage := "";
         MPCommitter := None; MPCommitterDate := None;
         MPAuthor := None; MPAuthorDate := None;
         MPRefType := None; MPRefName := "";
         HeadExpectedSHA := InSourceSHA i;
         MPMethod := "" |} in
    merged <- call (GitMerge params) (gitMerge env params) ;;
    match merged with
    | inl err =>
        if isNotMergeable (errorStatus env err) then
          pure (Some (out (asConflictFilesError env err)), None, None)
        else exit (failWith (Wrap "merge check execution failed" err))
    | inr _ => pure (Some (out (MergeConflicts pr)), None, None)
    end
  else pure (Some (out (MergeConflicts pr)), None, None).

(** The part of Merge after the protection rules were verified and the
    request is not a dry run. *)
Definition doMerge (env : Env) (session : Session) (i : MergeInput) (pr : PullReq)
  (sourceRepo : Repository) (targetWriteParams sourceWriteParams : WriteParams)
  (ruleOut : MergeVerifyOutput) (violations : list RuleViolations)
  : Eff Call MergeReturn MergeReturn :=
  let now := timeNow env in
  let params :=
    {| MPWriteParams := targetWriteParams;
       BaseBranch := TargetBranch pr;
       HeadRepoUID := GitUID sourceRepo;
       HeadBranch := SourceBranch pr;
       MPTitle := mergeTitle env (Method i) pr sourceRepo;
       MPMessage := "";
       MPCommitter := Some (rpcIdentityFromPrincipal env (systemServicePrincipal env));
       MPCommitterDate := Some now;
       MPAuthor := Some (rpcIdentityFromPrincipal env (SessionPrincipal session));
       MPAuthorDate := Some now;
       MPRefType := Some RefTypeBranch;
       MPRefName := TargetBranch pr;
       HeadExpectedSHA := InSourceSHA i;
       MPMethod := Method i |} in
  merged <- call (GitMerge params) (gitMerge env params) ;;
  mergeOutput <-
    check merged
      (fun err =>
         if isNotMergeable (errorStatus env err) then
           (None,
            Some {| ConflictFiles := asConflictFilesError env err;
                    MVRuleViolations := violations |},
            None)
         else failWith (Wrap "merge check execution failed" err)) ;;
  updated <-
    call (PullReqUpdateOptLock pr)
         (pullreqUpdateOptLock env pr (markMerged env session (Method i) mergeOutput)) ;;
  pr <- check updated (fun err => failWith (Wrap "failed to update pull request" err)) ;;
  let activityPayload :=
    {| APMergeMethod := Method i;
       APMergeSHA := MOMergeSHA mergeOutput;
       APTargetSHA := MOBaseSHA mergeOutput;
       APSourceSHA := MOHeadSHA mergeOutput |} in
  let principalID := PrincipalID (SessionPrincipal session) in
  errAct <-
    call (ActivityCreateWithPayload pr principalID activityPayload)
         (activityCreateWithPayload env pr principalID activityPayload) ;;
  (if isSome errAct
   then call (LogError "failed to write pull req merge activity") tt
   else pure tt) ;;;
  call (ReportMerged pr activityPayload) tt ;;;
  branchDeleted <-
    (if DeleteSourceBranch ruleOut then
       let del := {| DBWriteParams := sourceWriteParams; BranchName := SourceBranch pr |} in
       errDelete <- call (GitDeleteBranch del) (gitDeleteBranch env del) ;;
       if isSome errDelete
       then call (LogError "failed to delete source branch after merging") false
       else pure true
     else pure false) ;;
  pure (Some {| RespDryRun := false;
                RespSHA := MOMergeSHA mergeOutput;
                BranchDeleted := branchDeleted;
                RespConflictFiles := [];
                RespRuleViolations := violations |},
        None, None).

(** The part of Merge that runs while the mutex is held. *)
Definition mergeLocked (env : Env) (session : Session) (targetRepo : Repository)
  (pullreqNum : Z) (i : MergeInput) : Eff Call MergeReturn MergeReturn :=
  let found := pullreqFindByNumber env (RepoID targetRepo) pullreqNum in
  found <- call (PullReqFindByNumber (RepoID targetRepo) pullreqNum found) found ;;
  pr <- check found (fun err => failWith (Wrap "failed to get pull request by number" err)) ;;
  exitIf (isSome (Merged pr)) (failWith (BadRequest "Pull request already merged")) ;;;
  exitIf (negb (isOpen (State pr))) (failWith (BadRequest "Pull request must be open")) ;;;
  exitIf (negb (String.eqb (SourceSHA pr) (InSourceSHA i)))
    (failWith (BadRequest "A newer commit is available. Only the latest commit can be merged.")) ;;;
  exitIf (IsDraft pr)
    (failWith (BadRequest "Draft pull requests can't be merged. Clear the draft flag first.")) ;;;
  listed <- call (ReviewerList (PullReqID pr)) (reviewerList env (PullReqID pr)) ;;
  reviewers <- check listed (fun err => failWith (Wrap "failed to load list of reviwers" err)) ;;
  targetWriteParams <-
    check (ControllerUtil.CreateRPCInternalWriteParams
             (internalAPIURL env) (generateEnvironmentVariables env) session targetRepo)
          (fun err => failWith (Wrap "failed to create RPC write params" err)) ;;
  src <- sourceParams env session targetRepo targetWriteParams pr ;;
  let '(sourceRepo, sourceWriteParams) := src in
  owner <- call (IsRepoOwner targetRepo) (isRepoOwner env session targetRepo) ;;
  isRepoOwner <-
    check owner (fun err => failWith (Wrap "failed to determine if user is repo owner" err)) ;;
  results <- call (CheckListResults (RepoID targetRepo) (SourceSHA pr))
                  (checkListResults env (RepoID targetRepo) (SourceSHA pr)) ;;
  checkResults <- check results (fun err => failWith (Wrap "failed to list status checks" err)) ;;
  rules <- call (ProtectionForRepository (RepoID targetRepo))
                (protectionForRepository env (RepoID targetRepo)) ;;
  protectionRules <-
    check rules
      (fun err => failWith (Wrap "failed to fetch protection rules for the repository" err)) ;;
  evaluated <- call (CodeOwnersEvaluate sourceRepo)
                    (codeOwnersEvaluate env sourceRepo pr reviewers) ;;
  let '(codeOwnerWithApproval, errOwners) := evaluated in
  match errOwners with
  | Some err =>
      exitIf (negb (isCodeOwnersNotFound env err))
             (failWith (Wrap "CODEOWNERS evaluation failed" err))
  | None => pure tt
  end ;;;
  let verifyInput :=
    {| MVActor := Some (SessionPrincipal session);
       MVAllowBypass := BypassRules i;
       MVIsRepoOwner := isRepoOwner;
       MVTargetRepo := targetRepo;
       MVSourceRepo := sourceRepo;
       MVPullReq := pr;
       MVReviewers := reviewers;
       MVMethod := Method i;
       MVCheckResults := checkResults;
       MVCodeOwners := codeOwnerWithApproval |} in
  let verified := MergeVerify protectionRules verifyInput in
  verified <- call (RulesMergeVerify verifyInput verified) verified ;;
  let '(ruleOut, violations, errVerify) := verified in
  match errVerify with
  | Some err => exit (failWith (Wrap "failed to verify protection rules" err))
  | None => pure tt
  end ;;;
  exitIf (IsCritical violations)
    (None, Some {| ConflictFiles := []; MVRuleViolations := violations |}, None) ;;;
  if DryRun i then dryRun env i pr sourceRepo targetWriteParams ruleOut violations
  else doMerge env session i pr sourceRepo targetWriteParams sourceWriteParams ruleOut violations.

Definition withMethod (i : MergeInput) (method : MergeMethod) : MergeInput :=
  {| Method := method; InSourceSHA := InSourceSHA i;
     BypassRules := BypassRules i; DryRun := DryRun i |}.

(** Controller.Merge: the calls made, in order, and the values returned. *)
Definition Merge (env : Env) (session : Session) (repoRef : string)
  (pullreqNum : Z) (i : MergeInput) : list Call * MergeReturn :=
  run (
    let '(method, ok) := sanitize env (Method i) in
    exitIf (negb ok) (failWith (BadRequest ("unsupported merge method: " ++ Method i))) ;;;
    let i := withMethod i method in
    access <- call (GetRepoCheckAccess repoRef) (getRepoCheckAccess env session repoRef) ;;
    targetRepo <-
      check access (fun err => failWith (Wrap "failed to acquire access to target repo" err)) ;;
    mutex <- call (NewMutexForPR (GitUID targetRepo) 0) (newMutexForPR env (GitUID targetRepo) 0) ;;
    match mutex with Some err => exit (failWith err) | None => pure tt end ;;;
    locked <- call MutexLock (mutexLock env) ;;
    match locked with Some err => exit (failWith err) | None => pure tt end ;;;
    defer MutexUnlock (mergeLocked env session targetRepo pullreqNum i)
  ).

End PullReqController.

(** ** encoding/base64: StdEncoding.DecodeString *)
Module Base64.

Import GoStr.

Definition carriageReturn : ascii := "013"%char.

Definition isNewline (c : ascii) : bool := Ascii.eqb c newline || Ascii.eqb c carriageReturn.

(** enc.decodeMap of the standard alphabet; None stands for 0xff. *)
Definition decodeMap (c : ascii) : option Z :=
  let n := Z.of_nat (nat_of_ascii c) in
  if byteBetween "A" "Z" c then Some (n - 65)
  else if byteBetween "a" "z" c then Some (n - 97 + 26)
  else if isDigit c then Some (n - 48 + 52)
  else if Ascii.eqb c "+" then Some 62
  else if Ascii.eqb c "/" then Some 63
  else None.

Definition byteOf (n : Z) : ascii := ascii_of_nat (Z.to_nat (n mod 256)).

(** The first [dlen - 1] bytes of the 24 bits made of four 6-bit values. *)
Definition quantumBytes (dbuf : list Z) (dlen : nat) : string :=
  let val := Z.lor (Z.lor (Z.shiftl (nth 0 dbuf 0) 18) (Z.shiftl (nth 1 dbuf 0) 12))
                   (Z.lor (Z.shiftl (nth 2 dbuf 0) 6) (nth 3 dbuf 0)) in
  takeBytes (dlen - 1)
    (String (byteOf (Z.shiftr val 16))
       (String (byteOf (Z.shiftr val 8)) (String (byteOf val) EmptyString))).

(** for si < len(src) && (src[si] == '\n' || src[si] == '\r') { si++ } *)
Fixpoint skipNewlines (src : string) (si : Z) : string * Z :=
  match src with
  | String c rest => if isNewline c then skipNewlines rest (si + 1) else (src, si)
  | EmptyString => (src, si)
  end.

Inductive Quantum :=
| QBytes (decoded : string) (rest : string) (si : Z)  (* bytes decoded, input left *)
| QCorrupt (offset : Z).                              (* CorruptInputError *)

(** decodeQuantum: [src] is the input from offset [si] on, [total] is
    len(src) of the whole input, [dbuf] holds the [length dbuf] values read
    so far. Trailing input after padding is reported as corrupt. *)
Fixpoint decodeQuantum (total : Z) (dbuf : list Z) (src : string) (si : Z) : Quantum :=
  let j := length dbuf in
  match src with
  | EmptyString =>
      if Nat.eqb j 0 then QBytes EmptyString EmptyString si
      else QCorrupt (si - Z.of_nat j)
  | String c rest =>
      let si := si + 1 in
      match decodeMap c with
      | Some out =>
          if Nat.eqb j 3 then QBytes (quantumBytes (dbuf ++ [out]) 4) rest si
          else decodeQuantum total (dbuf ++ [out]) rest si
      | None =>
          if isNewline c then decodeQuantum total dbuf rest si
          else if negb (Ascii.eqb c "=") then QCorrupt (si - 1)
          else
            match j with
            | 0%nat | 1%nat => QCorrupt (si - 1)
            | _ =>
                let afterPad :=
                  if Nat.eqb j 2 then
                    let '(rest1, si1) := skipNewlines rest si in
                    match rest1 with
                    | EmptyString => inl total
                    | String c1 rest2 =>
                        if negb (Ascii.eqb c1 "=") then inl (si1 - 1)
                        else inr (rest2, si1 + 1)
                    end
                  else inr (rest, si) in
                match afterPad with
                | inl offset => QCorrupt offset
                | inr (rest1, si1) =>
                    let '(rest2, si2) := skipNewlines rest1 si1 in
                    match rest2 with
                    | EmptyString => QBytes (quantumBytes dbuf j) EmptyString si2
                    | String _ _ => QCorrupt si2
                    end
                end
            end
      end
  end.

(** The loop of Decode: quantum after quantum until the input is used up.
    Each quantum that leaves input behind has read at least four bytes. *)
Fixpoint decodeLoop (fuel : nat) (total : Z) (src : string) (si : Z) : Z + string :=
  match fuel with
  | O => inr EmptyString
  | S fuel' =>
      match src with
      | EmptyString => inr EmptyString
      | _ =>
          match decodeQuantum total [] src si with
          | QCorrupt offset => inl offset
          | QBytes decoded rest si' =>
              match decodeLoop fuel' total rest si' with
              | inl offset => inl offset
              | inr more => inr (decoded ++ more)
              end
          end
      end
  end.

(** The offset of the corrupt byte, or the decoded bytes. *)
Definition DecodeString (s : string) : Z + string :=
  decodeLoop (String.length s) (len s) s 0.

(** CorruptInputError(offset) *)
Definition CorruptInputError (offset : Z) : error :=
  Plain ("illegal base64 data at input byte "
         ++ DecimalString.NilZero.string_of_int (Z.to_int offset)).

End Base64.

(** ** The commit-files controller (app/api/controller/repo/commit.go) *)
Module RepoController.

Import Eff Protection.

Inductive ContentEncodingType :=
| ContentEncodingTypeUTF8
| ContentEncodingTypeBase64
| ContentEncodingTypeOther (raw : string).   (* unset or unknown *)

(** CommitFileAction of the controller: the payload is text. *)
Record CommitFileAction := {
  Action : string;
  Path : string;
  Payload : string;
  Encoding : ContentEncodingType;
  ActionSHA : string
}.

Record CommitFilesOptions := {
  OptTitle : string;
  OptMessage : string;
  Branch : string;
  NewBranch : string;
  Actions : list CommitFileAction
}.

(** gitrpc.CommitFileAction: the payload is bytes. *)
Record RPCCommitFileAction := {
  RPCAction : string;
  RPCPath : string;
  RPCPayload : string;
  RPCSHA : string
}.

Record CommitFilesParams := {
  CFWriteParams : WriteParams;
  CFTitle : string;
  CFMessage : string;
  CFBranch : string;
  CFNewBranch : string;
  CFActions : list RPCCommitFileAction;
  CFCommitter : Identity;
  CFCommitterDate : Z;
  CFAuthor : Identity;
  CFAuthorDate : Z
}.

Record CommitFilesResponse := {
  CommitID : string;
  RuleViolationsOut : list RuleViolations
}.

Definition CommitFilesReturn : Type := CommitFilesResponse * option error.

Definition emptyResponse : CommitFilesResponse :=
  {| CommitID := ""; RuleViolationsOut := [] |}.

Definition failWith (e : error) : CommitFilesReturn := (emptyResponse, Some e).

Inductive Call :=
| GetRepoCheckAccess (repoRef : string)
| IsSpaceAdmin (repo : Repository)
| ProtectionForRepository (repoID : Z)
| RulesCanPush (i : CanPushInput)
| GitCommitFiles (p : CommitFilesParams).

Record Env := {
  getRepoCheckAccess : Session -> string -> error + Repository;
  isSpaceAdmin : Session -> Repository -> error + bool;
  protectionForRepository : Z -> error + RuleSet;
  internalAPIURL : string;
  generateEnvironmentVariables :
    string -> Z -> Z -> bool -> bool -> error + gmap string string;
  timeNow : Z;
  gitCommitFiles : CommitFilesParams -> error + string;   (* the commit ID *)
  rpcIdentityFromPrincipal : Principal -> Identity;
  systemServicePrincipal : Principal
}.

(** The body of the loop over in.Actions for one action. *)
Definition decodeAction (action : CommitFileAction) : error + RPCCommitFileAction :=
  let mk rawPayload :=
    {| RPCAction := Action action; RPCPath := Path action;
       RPCPayload := rawPayload; RPCSHA := ActionSHA action |} in
  match Encoding action with
  | ContentEncodingTypeBase64 =>
      match Base64.DecodeString (Payload action) with
      | inl offset =>
          inl (Wrap "failed to decode base64 payload" (Base64.CorruptInputError offset))
      | inr rawPayload => inr (mk rawPayload)
      end
  | ContentEncodingTypeUTF8 => inr (mk (Payload action))
  | ContentEncodingTypeOther _ => inr (mk (Payload action))
  end.

(** The loop over in.Actions: the first payload that fails stops it. *)
Fixpoint decodeActions (actions : list CommitFileAction)
  : error + list RPCCommitFileAction :=
  match actions with
  | [] => inr []
  | action :: rest =>
      match decodeAction action with
      | inl err => inl err
      | inr a =>
          match decodeActions rest with
          | inl err => inl err
          | inr more => inr (a :: more)
          end
      end
  end.

Local Open Scope eff_scope.

(** The protection check made when no new branch is asked for. *)
Definition checkCanPush (env : Env) (session : Session) (repo : Repository)
  (i : CommitFilesOptions) : Eff Call CommitFilesReturn unit :=
  admin <- call (IsSpaceAdmin repo) (isSpaceAdmin env session repo) ;;
  isSpaceOwner <- check admin failWith ;;
  rules <- call (ProtectionForRepository (RepoID repo))
                (protectionForRepository env (RepoID repo)) ;;
  protectionRules <-
    check rules
      (fun err => failWith (Wrap "failed to fetch protection rules for the repository" err)) ;;
  let pushInput :=
    {| CPActor := Some (SessionPrincipal session);
       CPIsSpaceOwner := isSpaceOwner;
       CPRepo := repo;
       CPBranchNames := [Branch i] |} in
  pushed <- call (RulesCanPush pushInput) (CanPush protectionRules pushInput) ;;
  let '(violations, errPush) := pushed in
  match errPush with
  | Some err =>
      exit (failWith (Wrap "failed to verify protection rules for git push" err))
  | None => pure tt
  end ;;;
  exitIf (IsCritical violations)
    ({| CommitID := ""; RuleViolationsOut := violations |}, None).

(** Controller.CommitFiles: the calls made, in order, and the values returned. *)
Definition CommitFiles (env : Env) (session : Session) (repoRef : string)
  (i : CommitFilesOptions) : list Call * CommitFilesReturn :=
  run (
    access <- call (GetRepoCheckAccess repoRef) (getRepoCheckAccess env session repoRef) ;;
    repo <- check access failWith ;;
    (if GoStr.isEmpty (NewBranch i) then checkCanPush env session repo i else pure tt) ;;;
    actions <- check (decodeActions (Actions i)) failWith ;;
    writeParams <-
      check (ControllerUtil.CreateRPCInternalWriteParams
               (internalAPIURL env) (generateEnvironmentVariables env) session repo)
            (fun err => failWith (Wrap "failed to create RPC write params" err)) ;;
    let now := timeNow env in
    let params :=
      {| CFWriteParams := writeParams;
         CFTitle := OptTitle i;
         CFMessage := OptMessage i;
         CFBranch := Branch i;
         CFNewBranch := NewBranch i;
         CFActions := actions;
         CFCommitter := rpcIdentityFromPrincipal env (systemServicePrincipal env);
         CFCommitterDate := now;
         CFAuthor := rpcIdentityFromPrincipal env (SessionPrincipal session);
         CFAuthorDate := now |} in
    committed <- call (GitCommitFiles params) (gitCommitFiles env params) ;;
    commitID <- check committed failWith ;;
    pure ({| CommitID := commitID; RuleViolationsOut := [] |}, None)
  ).

End RepoController.

(** ** Vocabulary of the properties *)
Module BlameSpec.

Import GoStr Blame.

Fixpoint allBytes (p : ascii -> bool) (s : string) : bool :=
  match s with
  | EmptyString => true
  | String c s' => p c && allBytes p s'
  end.

(** One or more decimal digits. *)
Definition digits (s : string) : Prop := allBytes isDigit s = true /\ s <> "".

(** The lines blamePorcelainHeadRE matches: a SHA of 40 or 64 lower-case
    hexadecimal digits and two numbers, then an optional third number
    [count], all separated by one space. *)
Definition isHeadLine (line sha count : string) : Prop :=
  allBytes isLowerHex sha = true
  /\ (String.length sha = 40 \/ String.length sha = 64)%nat
  /\ allBytes isDigit count = true
  /\ exists d1 d2,
      digits d1 /\ digits d2
      /\ line = sha ++ " " ++ d1 ++ " " ++ d2
                ++ (if isEmpty count then "" else " " ++ count).

(** The lines blamePorcelainOutOfRangeErrorRE matches: any text that ends
    in "has only N lines". *)
Definition isOutOfRange (line : string) : Prop :=
  exists before n, digits n /\ line = before ++ "has only " ++ n ++ " lines".

(** The lines a reader has yet to deliver: the pushed back line first. *)
Definition pending (r : BlameReader) : list string :=
  (if isEmpty (lastLine r) then [] else [lastLine r]) ++ scanner r.

(** A line that is not the header of a commit other than [sha]. *)
Definition sameCommit (sha line : string) : Prop :=
  forall sha' n, blamePorcelainHead line = Some (sha', n) -> sha' = sha.

Definition sameCommitb (sha line : string) : bool :=
  match blamePorcelainHead line with
  | Some (sha', _) => String.eqb sha' sha
  | None => true
  end.

(** The file content carried by the tab-prefixed lines, in order. *)
Definition contentLines (block : list string) : list string :=
  flat_map (fun line =>
              match line with
              | String b content => if Ascii.eqb b tab then [content] else []
              | EmptyString => []
              end) block.

(** Every entry of the cache is stored under the SHA of its commit. *)
Definition cacheKeyed (cache : gmap string Commit) : Prop :=
  forall k c, cache !! k = Some c -> SHA c = k.

(** The pointer into the cache points to a commit with the SHA of its key. *)
Definition aliasKeyed (st : Locals) : Prop :=
  forall k c, alias st = Some k -> commit st = Some c -> SHA c = k.

(** The call reads the stream to its end: the loop of NextPart is left by
    its break, not by the return at a change of commit. *)
Definition runsToEnd (r : BlameReader) : bool :=
  match loop (2 + length (scanner r)) noLocals r with
  | Broke _ _ _ => true
  | _ => false
  end.

(** The text before the first newline, all of it when there is none. *)
Definition firstLine (s : string) : string := fst (fst (Cut s newline)).

(** The text the classification looks at: the first line, or all of the
    stderr content when that starts with a newline. *)
Definition stderrLine (s : string) : string :=
  match s with
  | String b _ => if Ascii.eqb b newline then s else firstLine s
  | EmptyString => s
  end.

Definition stderrCode (line : string) : Code :=
  if Contains line "no such path" || Contains line "bad revision" then NotFound
  else if blamePorcelainOutOfRangeError line then InvalidArgument
  else Unknown.

(** The classification as the specification words it: by the first line. *)
Definition classifiedByFirstLine (r : BlameReader) : Prop :=
  let line := TrimPrefix (firstLine (errReader r)) "fatal: " in
  exists r', NextPart r = (None, Some (StatusError (stderrCode line) line), r').

(** A caller that drops the record whenever the error is not nil. *)
Definition recordUnlessError (res : option BlamePart * option error * BlameReader)
  : option BlamePart :=
  match res with
  | (part, None, _) => part
  | (_, Some _, _) => None
  end.

(** The lines still to be read count the iterations the loop can take. *)
Definition measure (r : BlameReader) : nat :=
  length (scanner r) + (if isEmpty (lastLine r) then 0 else 1).

End BlameSpec.

Module CommitSpec.

Import GoStr CommitAdapter.


(** The SHAs of a page, in order. *)
Definition shas (commits : list Commit) : list string := map SHA commits.

(** The first and the last commit of a page. *)
Definition firstSHA (commits : list Commit) : option string := SHA <$> head commits.
Definition lastSHA (commits : list Commit) : option string := SHA <$> last commits.

(** The rename git log reports for a commit and a path. *)
Definition renameOf (TrimSpace : string -> string)
  (runGit : list string -> (error * string) + (string * string))
  (ref path : string) : Res PathRenameDetails :=
  snd (giteaGetRenameDetails TrimSpace runGit ref path).

(** A line of git log --name-status that reports the rename of
    [oldPath] to [newPath]: "R" with a similarity score, the old path and
    the new path, separated by tabs. *)
Definition isRenameLine (line oldPath newPath : string) : Prop :=
  exists score,
    line = "R" ++ score ++ String tab (oldPath ++ String tab newPath).

(** The commit is the before side of a rename whose old path is [path]:
    git log --name-status reports such a rename for it. *)
Definition isBeforeSideOfRename
  (runGit : list string -> (error * string) + (string * string))
  (ref path : string) : Prop :=
  exists stdout stderr line newPath,
    runGit ["log"; ref; "--name-status"; "--pretty=format:"; "-1"] = inr (stdout, stderr)
    /\ In line (Split stdout newline)
    /\ isRenameLine line path newPath.

(** The listing as the specification words it: the leading commit of the
    page is removed exactly when it is the before side of a rename whose
    old path is the filtered path. *)
Definition leadingRemovedWhenRenamed (TrimSpace : string -> string)
  (runGit : list string -> (error * string) + (string * string))
  (commits : list Commit) (path : string) : Prop :=
  forall first rest cleaned details,
    commits = first :: rest ->
    snd (ListCommits TrimSpace runGit commits path) = Done (cleaned, details) ->
    (isBeforeSideOfRename runGit (SHA first) path <-> cleaned = rest).

(** No SHA appears twice in the two cleaned pages of the old and the new
    path. *)
Definition noSHATwice (TrimSpace : string -> string)
  (runGit : list string -> (error * string) + (string * string))
  (pageNew : list Commit) (newPath : string)
  (pageOld : list Commit) (oldPath : string) : Prop :=
  forall cleanedNew detailsNew cleanedOld detailsOld,
    snd (ListCommits TrimSpace runGit pageNew newPath) = Done (cleanedNew, detailsNew) ->
    snd (ListCommits TrimSpace runGit pageOld oldPath) = Done (cleanedOld, detailsOld) ->
    List.NoDup (shas (cleanedNew ++ cleanedOld)).

End CommitSpec.

Module ProtectionSpec.

Import Protection.

(** The entry holds a violation. *)
Definition hasViolation (rv : RuleViolations) : bool :=
  negb (Nat.eqb (length (Violations rv)) 0).

(** Every entry carries the flag [bypassed]. *)
Definition flaggedWith (bypassed : bool) (violations : list RuleViolations) : Prop :=
  Forall (fun rv => Bypassed rv = bypassed) violations.

(** No two entries differ in the flag. *)
Definition sameFlag (violations : list RuleViolations) : Prop :=
  forall a b, In a violations -> In b violations -> Bypassed a = Bypassed b.

(** The entries are those of [produced], rule by rule and violation by
    violation, in their order. *)
Definition sameFindings (violations produced : list RuleViolations) : Prop :=
  map Rule violations = map Rule produced
  /\ map Violations violations = map Violations produced.

(** MergeVerify as the specification words it: every evaluation of the
    rule flags all the violations it returns as bypassed exactly when the
    caller asked for bypass and the actor matches the bypass policy. *)
Definition mergeVerifyFlagsEveryEvaluation {DefBypass DefPullReq DefLifecycle : Type}
  (bypassMatches : DefBypass -> option Principal -> bool -> bool)
  (pullReqMergeVerify :
     DefPullReq -> MergeVerifyInput ->
     MergeVerifyOutput * list RuleViolations * option error)
  (v : Branch DefBypass DefPullReq DefLifecycle) : Prop :=
  forall mi,
    flaggedWith
      (MVAllowBypass mi && bypassMatches (Bypass v) (MVActor mi) (MVIsRepoOwner mi))
      (snd (fst (BranchMergeVerify bypassMatches pullReqMergeVerify v mi))).

End ProtectionSpec.

Module MergeSpec.

Import PullReqController.

(** The calls that write to a git repository. *)
Definition isGitWrite (c : Call) : bool :=
  match c with
  | GitMerge _ | GitDeleteBranch _ => true
  | _ => false
  end.

(** The calls that change the stored pull request or its activities. *)
Definition isPullReqMutation (c : Call) : bool :=
  match c with
  | PullReqUpdateOptLock _ | ActivityCreateWithPayload _ _ _ => true
  | _ => false
  end.

Definition noGitWrite (calls : list Call) : Prop :=
  Forall (fun c => isGitWrite c = false) calls.

Definition noPullReqMutation (calls : list Call) : Prop :=
  Forall (fun c => isPullReqMutation c = false) calls.

Definition newerCommitMessage : string :=
  "A newer commit is available. Only the latest commit can be merged.".

(** The stale request is rejected as the specification words it: with the
    newer-commit message, whatever the state of the pull request. *)
Definition staleRejectedAsNewerCommit (env : Env) (session : Session) (repoRef : string)
  (pullreqNum : Z) (i : MergeInput) : Prop :=
  forall repoID pr,
    In (PullReqFindByNumber repoID pullreqNum (inr pr))
       (fst (Merge env session repoRef pullreqNum i)) ->
    SourceSHA pr <> InSourceSHA i ->
    snd (Merge env session repoRef pullreqNum i)
    = failWith (BadRequest newerCommitMessage)
    /\ noGitWrite (fst (Merge env session repoRef pullreqNum i)).

(** The write parameters of the branch deletion are those of the source
    repository. *)
Definition deletesWithSourceParams (env : Env) (sourceRepo : Repository)
  (calls : list Call) : Prop :=
  forall p, In (GitDeleteBranch p) calls -> RepoUID (DBWriteParams p) = GitUID sourceRepo.

End MergeSpec.

Module CommitFilesSpec.

Import RepoController.

(** A base64 action whose payload does not decode. *)
Definition failsToDecode (a : CommitFileAction) : Prop :=
  Encoding a = ContentEncodingTypeBase64
  /\ exists offset, Base64.DecodeString (Payload a) = inl offset.

Definition isGitWrite (c : Call) : bool :=
  match c with
  | GitCommitFiles _ => true
  | _ => false
  end.

Definition noGitWrite (calls : list Call) : Prop :=
  Forall (fun c => isGitWrite c = false) calls.

(** The error is, or wraps, a bad request or an InvalidArgument status. *)
Fixpoint classifiedInvalidArgument (e : error) : bool :=
  match e with
  | UserError status _ => (status =? 400)%Z
  | StatusError InvalidArgument _ => true
  | Wrap _ inner => classifiedInvalidArgument inner
  | _ => false
  end.

(** The payload that does not decode is answered as the specification
    words it: with an error classified as InvalidArgument. *)
Definition badPayloadIsInvalidArgument (env : Env) (session : Session) (repoRef : string)
  (i : CommitFilesOptions) : Prop :=
  forall a,
    In a (Actions i) -> failsToDecode a ->
    (exists err,
        snd (snd (CommitFiles env session repoRef i)) = Some err
        /\ classifiedInvalidArgument err = true)
    /\ noGitWrite (fst (CommitFiles env session repoRef i)).

(** The payload of an action that is not base64 reaches git unchanged. *)
Definition passedThrough (a : CommitFileAction) (a' : RPCCommitFileAction) : Prop :=
  Encoding a <> ContentEncodingTypeBase64 -> RPCPayload a' = Payload a.

End CommitFilesSpec.

(** ** Sample inputs *)
Module Samples.

Import GoStr Blame.

Definition shaA : string := "aaaaaaaaaaaaaaaaaaaaaaaaaaaaaaaaaaaaaaaa".
Definition shaB : string := "bbbbbbbbbbbbbbbbbbbbbbbbbbbbbbbbbbbbbbbb".

Definition content (s : string) : string := String tab s.

Definition readerOf (ls : list string) (stderr : string) : BlameReader :=
  {| scanner := ls; scanErr := None; lastLine := "";
     commitCache := ∅; errReader := stderr |}.

(** Two sections of commit A, then one of commit B. *)
Definition sectionA1 : string := shaA ++ " 1 1 2".
Definition sectionA2 : string := shaA ++ " 2 2".
Definition sectionB : string := shaB ++ " 3 3 1".

Definition blockA : list string :=
  ["author Bob"; "author-mail <bob@example.org>"; "summary first";
   content "line one"; sectionA2; content "line two"].

Definition twoSections : BlameReader :=
  readerOf (sectionA1 :: blockA ++ sectionB :: [content "line three"]) "".

(** Commit A alone, up to the end of the stream. *)
Definition lastBlock : BlameReader := readerOf (sectionA1 :: blockA) "".

(** The same with a message of git on stderr. *)
Definition failedBlame : BlameReader :=
  readerOf (sectionA1 :: blockA) "fatal: file a.txt has only 12 lines".

(** Stderr content that starts with an empty line. *)
Definition blankFirstLine : BlameReader :=
  readerOf [] (String newline ("warning: x" ++ String newline "fatal: bad revision 'x'")).

End Samples.

Module CommitSamples.

Import GoStr.

(** bytes.TrimSpace on text whose ends are ASCII. *)
Definition isAsciiSpace (c : ascii) : bool :=
  existsb (Ascii.eqb c) [tab; newline; "011"%char; "012"%char; "013"%char; space].

Fixpoint trimLeft (s : string) : string :=
  match s with
  | String b s' => if isAsciiSpace b then trimLeft s' else s
  | EmptyString => s
  end.

Fixpoint trimRight (s : string) : string :=
  match s with
  | EmptyString => EmptyString
  | String b s' =>
      match trimRight s' with
      | EmptyString => if isAsciiSpace b then EmptyString else String b EmptyString
      | rest => String b rest
      end
  end.

Definition TrimSpace (s : string) : string := trimRight (trimLeft s).





Definition commitOf (sha : string) : Commit :=
  {| SHA := sha; Title := ""; Message := "";
     Author := zeroSignature; Committer := zeroSignature |}.

(** A file renamed from old.txt to new.txt in commit "r1": git log
    reports the rename for "r1" and a plain change for any other commit. *)
Definition renameLog (args : list string) : (error * string) + (string * string) :=
  match args with
  | [_; ref; _; _; _] =>
      if String.eqb ref "r1"
      then inr ("R100" ++ String tab ("old.txt" ++ String tab "new.txt"), "")
      else inr ("M" ++ String tab "old.txt" ++ String newline
                    ("M" ++ String tab "new.txt"), "")
  | _ => inl (Plain "unexpected command", "")
  end.

(** Commit "r1" renames old.txt to new.txt and also changes gold.txt;
    git log lists the changes of a commit by path, so the line of gold.txt
    comes first. The commits "o1" and "o2" change old.txt, any other commit
    changes new.txt. *)
Definition renameBesideGoldLog (args : list string) : (error * string) + (string * string) :=
  match args with
  | [_; ref; _; _; _] =>
      if String.eqb ref "r1"
      then inr ("M" ++ String tab ("gold.txt" ++ String newline
                  ("R100" ++ String tab ("old.txt" ++ String tab
                     ("new.txt" ++ String newline "")))), "")
      else if String.eqb ref "o1" || String.eqb ref "o2"
      then inr ("M" ++ String tab ("old.txt" ++ String newline ""), "")
      else inr ("M" ++ String tab ("new.txt" ++ String newline ""), "")
  | _ => inl (Plain "unexpected command", "")
  end.

(** The page of the new path ends with the rename, the page of the old
    path starts with it. *)
Definition pageNew : list Commit := [commitOf "n2"; commitOf "n1"; commitOf "r1"].
Definition pageOld : list Commit := [commitOf "r1"; commitOf "o2"; commitOf "o1"].

End CommitSamples.

Module ProtectionSamples.

Import Protection.

(** A bypass policy: a list of user IDs and the repository owners. *)
Record SampleBypass := { UserIDs : list Z; RepoOwners : bool }.

Definition sampleMatches (b : SampleBypass) (actor : option Principal) (isRepoOwner : bool)
  : bool :=
  match actor with
  | Some a => existsb (Z.eqb (PrincipalID a)) (UserIDs b) || (RepoOwners b && isRepoOwner)
  | None => false
  end.

Definition violationsOf (uid msg : string) : RuleViolations :=
  {| Rule := {| RuleUID := uid |}; Bypassed := false;
     Violations := [{| ViolationCode := "pullreq.approvals"; ViolationMessage := msg |}] |}.

(** A pull request policy that always finds two violations. *)
Definition samplePullReqVerify (_ : unit) (_ : MergeVerifyInput)
  : MergeVerifyOutput * list RuleViolations * option error :=
  ({| DeleteSourceBranch := true |},
   [violationsOf "rule-1" "needs approval"; violationsOf "rule-1" "needs checks"], None).

(** A pull request policy that finds a violation and then fails, as when
    a check of it cannot be completed. *)
Definition failingPullReqVerify (_ : unit) (_ : MergeVerifyInput)
  : MergeVerifyOutput * list RuleViolations * option error :=
  ({| DeleteSourceBranch := false |},
   [violationsOf "rule-1" "needs approval"],
   Some (Plain "failed to verify status checks")).

Definition sampleLifecycleVerify (_ : unit) (_ : RefChangeVerifyInput)
  : list RuleViolations * option error :=
  ([violationsOf "rule-1" "no force push"], None).

Definition sampleRule : Branch SampleBypass unit unit :=
  {| Bypass := {| UserIDs := [7]; RepoOwners := true |};
     PullReqDef := tt; Lifecycle := tt |}.

Definition alice : Principal :=
  {| PrincipalID := 7; DisplayName := "Alice"; PrincipalEmail := "alice@example.org" |}.

Definition targetRepo : Repository :=
  {| RepoID := 1; GitUID := "target-git-uid"; RepoPath := "space/target" |}.

Definition sourceRepo : Repository :=
  {| RepoID := 2; GitUID := "source-git-uid"; RepoPath := "fork/source" |}.

Definition openPullReq : PullReq :=
  {| PullReqID := 10; Number := 3; PullReqTitle := "Add feature";
     State := PullReqStateOpen; IsDraft := false;
     Merged := None; MergedBy := None; PullReqMergeMethod := None;
     SourceRepoID := 2; TargetRepoID := 1;
     SourceBranch := "feature"; TargetBranch := "main";
     SourceSHA := "abc123";
     PRMergeCheckStatus := MergeCheckStatusMergeable;
     MergeTargetSHA := None; MergeBaseSHA := ""; MergeSHA := None;
     MergeConflicts := []; ActivitySeq := 4 |}.

Definition verifyInput (allowBypass : bool) : MergeVerifyInput :=
  {| MVActor := Some alice; MVAllowBypass := allowBypass; MVIsRepoOwner := false;
     MVTargetRepo := targetRepo; MVSourceRepo := sourceRepo; MVPullReq := openPullReq;
     MVReviewers := []; MVMethod := "merge"; MVCheckResults := [];
     MVCodeOwners := None |}.

End ProtectionSamples.

Module MergeSamples.

Import Protection PullReqController ProtectionSamples.

Definition session : Session := {| SessionPrincipal := alice |}.

Definition systemPrincipal : Principal :=
  {| PrincipalID := 0; DisplayName := "Gitness"; PrincipalEmail := "system@gitness.io" |}.

Definition identityOf (p : Principal) : Identity :=
  {| Name := DisplayName p; Email := PrincipalEmail p |}.

(** Hook variables that name the repository they were made for. *)
Definition hookVariables (apiURL : string) (repoID principalID : Z) (disabled internal : bool)
  : error + gmap string string :=
  inr {[ "GIT_HOOK_REPO_ID" := PullReqController.itoa repoID ]}.

(** Rules that ask for the source branch to be deleted and return the
    given violations. *)
Definition rulesWith (violations : list RuleViolations) : RuleSet :=
  {| MergeVerify := fun _ => ({| DeleteSourceBranch := true |}, violations, None);
     CanPush := fun _ => (violations, None) |}.

(** Collaborators that all succeed, around the stored pull request [pr]
    and the rules [rules]; the source repository is a fork. *)
Definition envOf (pr : PullReq) (rules : RuleSet) : Env :=
  {| sanitize := fun m => (m, true);
     mergeMethodSquash := "squash";
     getRepoCheckAccess := fun _ _ => inr targetRepo;
     newMutexForPR := fun _ _ => None;
     mutexLock := None;
     pullreqFindByNumber := fun _ _ => inr pr;
     reviewerList := fun _ => inr [];
     internalAPIURL := "http://localhost:3000";
     generateEnvironmentVariables := hookVariables;
     repoFind := fun _ => inr sourceRepo;
     isRepoOwner := fun _ _ => inr false;
     checkListResults := fun _ _ => inr [];
     protectionForRepository := fun _ => inr rules;
     codeOwnersEvaluate := fun _ _ _ => (None, None);
     isCodeOwnersNotFound := fun _ => false;
     gitMerge := fun _ =>
       inr {| MOBaseSHA := "base"; MOHeadSHA := "abc123";
              MOMergeBaseSHA := "mergebase"; MOMergeSHA := "merged" |};
     errorStatus := fun _ => StatusOther;
     asConflictFilesError := fun _ => [];
     timeNow := 1700000000000;
     pullreqUpdateOptLock := fun pr mutate => inr (mutate pr);
     activityCreateWithPayload := fun _ _ _ => None;
     gitDeleteBranch := fun _ => None;
     rpcIdentityFromPrincipal := identityOf;
     systemServicePrincipal := systemPrincipal |}.

Definition mergeInput (sha : string) : MergeInput :=
  {| Method := "merge"; InSourceSHA := sha; BypassRules := false; DryRun := false |}.

Definition criticalViolations : list RuleViolations :=
  [violationsOf "rule-1" "needs approval"].

(** The pull request of the samples, already merged. *)
Definition mergedPullReq : PullReq :=
  {| PullReqID := 10; Number := 3; PullReqTitle := "Add feature";
     State := PullReqStateMerged; IsDraft := false;
     Merged := Some 1690000000000; MergedBy := Some 7; PullReqMergeMethod := Some "merge";
     SourceRepoID := 2; TargetRepoID := 1;
     SourceBranch := "feature"; TargetBranch := "main";
     SourceSHA := "abc123";
     PRMergeCheckStatus := MergeCheckStatusMergeable;
     MergeTargetSHA := Some "base"; MergeBaseSHA := "mergebase"; MergeSHA := Some "merged";
     MergeConflicts := []; ActivitySeq := 5 |}.

End MergeSamples.

Module CommitFilesSamples.

Import Protection RepoController ProtectionSamples.

Definition envOf (rules : RuleSet) : Env :=
  {| getRepoCheckAccess := fun _ _ => inr targetRepo;
     isSpaceAdmin := fun _ _ => inr false;
     protectionForRepository := fun _ => inr rules;
     internalAPIURL := "http://localhost:3000";
     generateEnvironmentVariables := MergeSamples.hookVariables;
     timeNow := 1700000000000;
     gitCommitFiles := fun _ => inr "c0ffee";
     rpcIdentityFromPrincipal := MergeSamples.identityOf;
     systemServicePrincipal := MergeSamples.systemPrincipal |}.

Definition badBase64 : CommitFileAction :=
  {| Action := "CREATE"; Path := "a.txt"; Payload := "!!!";
     Encoding := ContentEncodingTypeBase64; ActionSHA := "" |}.

Definition plainText : CommitFileAction :=
  {| Action := "CREATE"; Path := "b.txt"; Payload := "hello = world";
     Encoding := ContentEncodingTypeOther ""; ActionSHA := "" |}.

Definition commitOn (branch : string) (actions : list CommitFileAction) : CommitFilesOptions :=
  {| OptTitle := "Update"; OptMessage := ""; Branch := branch; NewBranch := "";
     Actions := actions |}.

End CommitFilesSamples.

(** * Properties *)

(** ** The blame reader *)
Module BlameProofs.

Import GoStr Blame BlameSpec.

Local Arguments contentLines : simpl never.

Lemma isEmpty_true (s : string) : isEmpty s = true -> s = "".
Proof. destruct s; [reflexivity | discriminate]. Qed.

(** *** Header fields *)

Example extractEmail_wrapped : extractEmail "<a@b.com>" = "a@b.com".
Proof. reflexivity. Qed.

Example extractEmail_bare : extractEmail "a@b.com" = "a@b.com".
Proof. reflexivity. Qed.

Example extractTime_unparsable : extractTime "yesterday" = 0%Z.
Proof. reflexivity. Qed.

Example head_line_with_count :
  blamePorcelainHead Samples.sectionA1 = Some (Samples.shaA, "2").
Proof. reflexivity. Qed.

Example content_line_is_no_head :
  blamePorcelainHead (Samples.content "deadbeef 1 1") = None.
Proof. reflexivity. Qed.

(** *** The two regular expressions *)

Lemma append_cons (x : ascii) (a b : string) : String x a ++ b = String x (a ++ b).
Proof. reflexivity. Qed.

Lemma append_nil_l (a : string) : "" ++ a = a.
Proof. reflexivity. Qed.

Lemma append_nil_r (a : string) : a ++ "" = a.
Proof.
  induction a as [|x a IH]; [reflexivity | rewrite append_cons, IH; reflexivity].
Qed.

Lemma span_split (p : ascii -> bool) (s run rest : string) :
  span p s = (run, rest) ->
  s = run ++ rest /\ allBytes p run = true
  /\ match rest with String c _ => p c = false | EmptyString => True end.
Proof.
  revert run rest. induction s as [|b s IH]; simpl; intros run rest H.
  - injection H as <- <-. auto.
  - destruct (p b) eqn:Hb.
    + destruct (span p s) as [run' rest'].
      injection H as <- <-.
      destruct (IH _ _ eq_refl) as (-> & Hall & Hstop).
      simpl. rewrite Hb, Hall. auto.
    + injection H as <- <-. simpl. auto.
Qed.

Lemma span_append (p : ascii -> bool) (run rest : string) :
  allBytes p run = true ->
  match rest with String c _ => p c = false | EmptyString => True end ->
  span p (run ++ rest) = (run, rest).
Proof.
  intros Hall Hstop. induction run as [|b run IH]; simpl in *.
  - destruct rest as [|c rest]; [reflexivity|]. simpl. rewrite Hstop. reflexivity.
  - apply andb_prop in Hall. destruct Hall as [Hb Hall].
    rewrite Hb, (IH Hall). reflexivity.
Qed.

Lemma isEmpty_false (s : string) : isEmpty s = false <-> s <> "".
Proof. destruct s; simpl; split; congruence. Qed.

(** blamePorcelainHead accepts the lines of the regular expression, and
    returns its submatches 1 and 5. *)
Lemma blamePorcelainHead_spec (line sha count : string) :
  blamePorcelainHead line = Some (sha, count) <-> isHeadLine line sha count.
Proof.
  unfold blamePorcelainHead, isHeadLine, digits. split.
  - destruct (span isLowerHex line) as [sha0 r0] eqn:Hsha.
    apply span_split in Hsha. destruct Hsha as (-> & Hhex & _).
    destruct ((String.length sha0 =? 40)%nat || (String.length sha0 =? 64)%nat) eqn:Hlen;
      [|discriminate].
    apply orb_prop in Hlen. rewrite !Nat.eqb_eq in Hlen.
    destruct r0 as [|c r1]; [discriminate|].
    destruct (Ascii.eqb c " ") eqn:Hc;
      [apply Ascii.eqb_eq in Hc; subst c
      | apply Ascii.eqb_neq in Hc;
        destruct c as [[] [] [] [] [] [] [] []]; try discriminate; congruence].
    destruct (span isDigit r1) as [d1 r2] eqn:Hd1.
    apply span_split in Hd1. destruct Hd1 as (-> & Hdig1 & _).
    destruct (isEmpty d1) eqn:He1; [discriminate|]. apply isEmpty_false in He1.
    destruct r2 as [|c r3]; [discriminate|].
    destruct (Ascii.eqb c " ") eqn:Hc;
      [apply Ascii.eqb_eq in Hc; subst c
      | apply Ascii.eqb_neq in Hc;
        destruct c as [[] [] [] [] [] [] [] []]; try discriminate; congruence].
    destruct (span isDigit r3) as [d2 r4] eqn:Hd2.
    apply span_split in Hd2. destruct Hd2 as (-> & Hdig2 & _).
    destruct (isEmpty d2) eqn:He2; [discriminate|]. apply isEmpty_false in He2.
    destruct r4 as [|c r5].
    + intros H. injection H as <- <-.
      repeat split; auto. exists d1, d2. repeat split; auto.
    + destruct (Ascii.eqb c " ") eqn:Hc;
        [apply Ascii.eqb_eq in Hc; subst c
        | apply Ascii.eqb_neq in Hc;
          destruct c as [[] [] [] [] [] [] [] []]; try discriminate; congruence].
      destruct (span isDigit r5) as [d3 r6] eqn:Hd3.
      apply span_split in Hd3. destruct Hd3 as (-> & Hdig3 & _).
      destruct (isEmpty d3) eqn:He3; [discriminate|].
      destruct (isEmpty r6) eqn:He6; [|discriminate].
      apply isEmpty_true in He6. subst r6.
      intros H. injection H as <- <-.
      repeat split; auto. exists d1, d2. repeat split; auto.
      rewrite He3, append_nil_r. reflexivity.
  - intros (Hhex & Hlen & Hcount & d1 & d2 & [Hdig1 Hne1] & [Hdig2 Hne2] & ->).
    assert (Hlenb : ((String.length sha =? 40)%nat || (String.length sha =? 64)%nat) = true).
    { destruct Hlen as [-> | ->]; reflexivity. }
    apply isEmpty_false in Hne1. apply isEmpty_false in Hne2.
    destruct (isEmpty count) eqn:Hcnt.
    + apply isEmpty_true in Hcnt. subst count.
      change (sha ++ " " ++ d1 ++ " " ++ d2 ++ "")
        with (sha ++ String " " (d1 ++ String " " (d2 ++ ""))).
      rewrite (span_append isLowerHex sha _ Hhex) by reflexivity.
      rewrite Hlenb. cbv iota.
      rewrite (span_append isDigit d1 _ Hdig1) by reflexivity.
      rewrite Hne1. cbv iota.
      rewrite (span_append isDigit d2 "" Hdig2 I).
      rewrite Hne2. reflexivity.
    + change (sha ++ " " ++ d1 ++ " " ++ d2 ++ " " ++ count)
        with (sha ++ String " " (d1 ++ String " " (d2 ++ String " " count))).
      rewrite (span_append isLowerHex sha _ Hhex) by reflexivity.
      rewrite Hlenb. cbv iota.
      rewrite (span_append isDigit d1 _ Hdig1) by reflexivity.
      rewrite Hne1. cbv iota.
      rewrite (span_append isDigit d2 _ Hdig2) by reflexivity.
      rewrite Hne2. cbv iota.
      rewrite <- (append_nil_r count) at 1.
      rewrite (span_append isDigit count "" Hcount I).
      rewrite Hcnt. reflexivity.
Qed.

Lemma HasPrefix_split (s p : string) :
  HasPrefix s p = true <-> exists rest, s = p ++ rest.
Proof.
  revert s. induction p as [|a p IH]; intros s; simpl.
  - split; [intros _; exists s; reflexivity | intros _; destruct s; reflexivity].
  - destruct s as [|b s].
    + split; [discriminate | intros [rest H]; discriminate].
    + simpl. split.
      * intros H. apply andb_prop in H. destruct H as [Hab Hp].
        apply Ascii.eqb_eq in Hab. subst b.
        apply IH in Hp. destruct Hp as [rest ->]. exists rest. reflexivity.
      * intros [rest H]. rewrite append_cons in H. injection H as -> ->.
        simpl. rewrite Ascii.eqb_refl. simpl. apply IH. exists rest. reflexivity.
Qed.

Lemma dropBytes_append (p rest : string) : dropBytes (String.length p) (p ++ rest) = rest.
Proof. induction p as [|a p IH]; simpl; [reflexivity | exact IH]. Qed.

Lemma blamePorcelainOutOfRangeError_unfold (s : string) :
  blamePorcelainOutOfRangeError s
  = outOfRangeAt s
    || match s with
       | EmptyString => false
       | String _ s' => blamePorcelainOutOfRangeError s'
       end.
Proof. destruct s; reflexivity. Qed.

(** blamePorcelainOutOfRangeError accepts the lines of the regular
    expression. *)
Lemma blamePorcelainOutOfRangeError_spec (line : string) :
  blamePorcelainOutOfRangeError line = true <-> isOutOfRange line.
Proof.
  unfold isOutOfRange, digits. split.
  - induction line as [|b line IH].
    + simpl. discriminate.
    + intros H. rewrite blamePorcelainOutOfRangeError_unfold in H.
      apply orb_prop in H. destruct H as [H | H].
      * unfold outOfRangeAt in H. apply andb_prop in H. destruct H as [Hpre H].
        apply HasPrefix_split in Hpre. destruct Hpre as [rest Hrest]. rewrite Hrest in H |- *.
        change 9%nat with (String.length "has only ") in H.
        rewrite dropBytes_append in H.
        destruct (span isDigit rest) as [n tail] eqn:Hspan.
        apply span_split in Hspan. destruct Hspan as (-> & Hdig & _).
        apply andb_prop in H. destruct H as [Hne Htail].
        apply negb_true_iff, isEmpty_false in Hne.
        apply String.eqb_eq in Htail. subst tail.
        exists "", n. auto.
      * destruct (IH H) as (before & n & Hn & ->).
        exists (String b before), n. auto.
  - intros (before & n & [Hdig Hne] & ->).
    induction before as [|b before IH].
    + rewrite append_nil_l, blamePorcelainOutOfRangeError_unfold.
      unfold outOfRangeAt.
      rewrite (proj2 (HasPrefix_split _ _) (ex_intro _ (n ++ " lines") eq_refl)).
      change 9%nat with (String.length "has only ").
      rewrite dropBytes_append.
      rewrite (span_append isDigit n " lines" Hdig) by reflexivity.
      apply isEmpty_false in Hne. rewrite Hne. reflexivity.
    + rewrite append_cons, blamePorcelainOutOfRangeError_unfold, IH.
      apply orb_true_r.
Qed.

Lemma scanNonEmpty_shorter (ls : list string) (line : string) (rest : list string) :
  scanNonEmpty ls = Some (line, rest) -> (length rest < length ls)%nat.
Proof.
  induction ls as [|l ls IH]; simpl; [discriminate|].
  destruct (isEmpty l).
  - intros H. specialize (IH H). lia.
  - intros H. injection H as _ <-. lia.
Qed.

(** The loop ends within the fuel NextPart gives it. *)
Lemma loop_total (fuel : nat) :
  forall st r, (measure r < fuel)%nat -> loop fuel st r <> Running.
Proof.
  induction fuel as [|fuel IH]; intros st r Hm; [lia|].
  simpl. unfold nextLine.
  destruct (isEmpty (lastLine r)) eqn:Hlast; simpl.
  - destruct (scanNonEmpty (scanner r)) as [[line rest]|] eqn:Hscan.
    + destruct (onLine line st (withInput r "" rest)) as [[part r'']|st'] eqn:Hon.
      * discriminate.
      * apply IH. apply scanNonEmpty_shorter in Hscan.
        unfold measure in *. simpl. rewrite Hlast in Hm. lia.
    + discriminate.
  - destruct (onLine (lastLine r) st (withInput r "" (scanner r))) as [[part r'']|st'] eqn:Hon.
    + discriminate.
    + apply IH. unfold measure in *. simpl. rewrite Hlast in Hm. lia.
Qed.

Lemma NextPart_loop_ends (r : BlameReader) :
  loop (2 + length (scanner r)) noLocals r <> Running.
Proof.
  apply loop_total. unfold measure. destruct (isEmpty (lastLine r)); lia.
Qed.

Lemma tab_line_no_head (b : ascii) (content : string) :
  Ascii.eqb b tab = true -> blamePorcelainHead (String b content) = None.
Proof.
  intros H. apply Ascii.eqb_eq in H. subst b. reflexivity.
Qed.

Lemma head_line_no_content (line sha n : string) :
  blamePorcelainHead line = Some (sha, n) -> contentLines [line] = [].
Proof.
  intros H. destruct line as [|b content]; [reflexivity|].
  unfold contentLines. simpl. destruct (Ascii.eqb b tab) eqn:Hb; [|reflexivity].
  rewrite (tab_line_no_head _ _ Hb) in H. discriminate.
Qed.

Lemma head_line_nonempty (line sha n : string) :
  blamePorcelainHead line = Some (sha, n) -> isEmpty line = false.
Proof. destruct line; [discriminate | reflexivity]. Qed.

Lemma parseBlameHeaders_SHA (line : string) (c : Commit) :
  SHA (parseBlameHeaders line c) = SHA c.
Proof.
  unfold parseBlameHeaders.
  repeat match goal with |- context [if ?b then _ else _] => destruct b end;
    reflexivity.
Qed.

Lemma contentLines_app (a b : list string) :
  contentLines (a ++ b) = (contentLines a ++ contentLines b)%list.
Proof. unfold contentLines. apply flat_map_app. Qed.

(** A line of the block of commit [sha] keeps the loop going: content is
    appended, a header of the same commit changes nothing. *)
Lemma onLine_in_block (sha line : string) (st : Locals) (r : BlameReader) (c : Commit) :
  commit st = Some c -> SHA c = sha -> sameCommit sha line ->
  exists c',
    onLine line st r
    = inr {| commit := Some c'; alias := alias st;
             lines := (lines st ++ contentLines [line])%list |}
    /\ SHA c' = sha.
Proof.
  intros Hc Hsha Hsame. unfold onLine.
  destruct (blamePorcelainHead line) as [[sha' n]|] eqn:Hhead.
  - rewrite Hc. rewrite (Hsame _ _ Hhead), <- Hsha, String.eqb_refl.
    exists c. rewrite (head_line_no_content _ _ _ Hhead), app_nil_r.
    destruct st; simpl in *. subst. auto.
  - rewrite Hc. destruct line as [|b content].
    + exists c. unfold contentLines. simpl. rewrite app_nil_r.
      destruct st; simpl in *. subst. auto.
    + unfold contentLines. simpl. destruct (Ascii.eqb b tab).
      * exists c. auto.
      * exists (parseBlameHeaders (String b content) c).
        rewrite app_nil_r, parseBlameHeaders_SHA. auto.
Qed.

Section Block.

Variables (sha next sha' n' : string) (rest : list string).
Variables (e : option error) (se : string).
Hypothesis Hnext : blamePorcelainHead next = Some (sha', n').
Hypothesis Hother : sha' <> sha.

(** Reading the lines of one commit up to the header of the next: the
    part is returned and the header is pushed back. *)
Lemma loop_block (block : list string) :
  forall fuel st cache c,
    commit st = Some c -> SHA c = sha ->
    Forall (sameCommit sha) block ->
    (length block < fuel)%nat ->
    exists c' cache',
      loop fuel st
        {| scanner := block ++ next :: rest; scanErr := e; lastLine := "";
           commitCache := cache; errReader := se |}
      = Returned {| PartCommit := c'; Lines := (lines st ++ contentLines block)%list |}
          {| scanner := rest; scanErr := e; lastLine := next;
             commitCache := cache'; errReader := se |}
      /\ SHA c' = sha /\ cache' !! sha = Some c'.
Proof.
  induction block as [|l block IH]; intros fuel st cache c Hc Hsha Hall Hfuel.
  - destruct fuel as [|fuel]; [simpl in Hfuel; lia|].
    simpl. unfold nextLine. simpl.
    rewrite (head_line_nonempty _ _ _ Hnext).
    unfold onLine. rewrite Hnext, Hc.
    assert (Hneq : String.eqb sha' (SHA c) = false).
    { apply String.eqb_neq. congruence. }
    rewrite Hneq. simpl.
    exists c, (<[SHA c := c]> (syncCache st cache)).
    rewrite app_nil_r. repeat split; auto.
    rewrite Hsha. apply lookup_insert_eq.
  - inversion Hall as [|? ? Hl Hblock]; subst.
    destruct fuel as [|fuel]; [simpl in Hfuel; lia|].
    destruct (isEmpty l) eqn:Hempty.
    + apply isEmpty_true in Hempty. subst l.
      destruct (IH (S fuel) st cache c Hc eq_refl Hblock ltac:(simpl in Hfuel; lia))
        as (c' & cache' & Hloop & Hc' & Hcache).
      exists c', cache'. split; [exact Hloop | auto].
    + simpl. unfold nextLine. simpl. rewrite Hempty.
      match goal with |- context [onLine l st ?r] =>
        destruct (onLine_in_block (SHA c) l st r c Hc eq_refl Hl) as (c1 & Hon & Hc1)
      end.
      rewrite Hon.
      match goal with |- context [loop fuel ?st1 _] =>
        destruct (IH fuel st1 cache c1 eq_refl Hc1 Hblock ltac:(simpl in Hfuel; lia))
          as (c' & cache' & Hloop & Hc' & Hcache)
      end.
      simpl in Hloop. change (contentLines (l :: block)) with (contentLines ([l] ++ block)).
      rewrite contentLines_app, app_assoc.
      exists c', cache'. repeat split; auto.
Qed.

End Block.

(** The same block read up to the end of the stream: the loop breaks with
    the lines of the block in hand. *)
Lemma loop_block_end (sha : string) (e : option error) (se : string) (block : list string) :
  forall fuel st cache c,
    commit st = Some c -> SHA c = sha ->
    Forall (sameCommit sha) block ->
    (length block < fuel)%nat ->
    exists c' cache',
      loop fuel st
        {| scanner := block; scanErr := e; lastLine := "";
           commitCache := cache; errReader := se |}
      = Broke (match e with Some err => err | None => EOF end)
          {| commit := Some c'; alias := alias st;
             lines := (lines st ++ contentLines block)%list |}
          {| scanner := []; scanErr := e; lastLine := "";
             commitCache := cache'; errReader := se |}
      /\ SHA c' = sha.
Proof.
  induction block as [|l block IH]; intros fuel st cache c Hc Hsha Hall Hfuel.
  - destruct fuel as [|fuel]; [simpl in Hfuel; lia|].
    simpl. unfold nextLine. simpl.
    exists c. eexists. split; [|exact Hsha].
    unfold contentLines. simpl. rewrite app_nil_r.
    destruct st; simpl in *. subst. reflexivity.
  - inversion Hall as [|? ? Hl Hblock]; subst.
    destruct fuel as [|fuel]; [simpl in Hfuel; lia|].
    destruct (isEmpty l) eqn:Hempty.
    + apply isEmpty_true in Hempty. subst l.
      destruct (IH (S fuel) st cache c Hc eq_refl Hblock ltac:(simpl in Hfuel; lia))
        as (c' & cache' & Hloop & Hc').
      exists c', cache'. split; [exact Hloop | auto].
    + simpl. unfold nextLine. simpl. rewrite Hempty.
      match goal with |- context [onLine l st ?r] =>
        destruct (onLine_in_block (SHA c) l st r c Hc eq_refl Hl) as (c1 & Hon & Hc1)
      end.
      rewrite Hon.
      match goal with |- context [loop fuel ?st1 _] =>
        destruct (IH fuel st1 cache c1 eq_refl Hc1 Hblock ltac:(simpl in Hfuel; lia))
          as (c' & cache' & Hloop & Hc')
      end.
      simpl in Hloop. change (l :: block) with ([l] ++ block)%list.
      rewrite contentLines_app, app_assoc.
      exists c', cache'. split; auto.
Qed.

Lemma cacheKeyed_insert (cache : gmap string Commit) (c : Commit) :
  cacheKeyed cache -> cacheKeyed (<[SHA c := c]> cache).
Proof.
  intros Hkeyed k c' Hlookup.
  destruct (decide (SHA c = k)) as [<- | Hne].
  - rewrite lookup_insert_eq in Hlookup. congruence.
  - rewrite lookup_insert_ne in Hlookup by exact Hne. exact (Hkeyed _ _ Hlookup).
Qed.

Lemma cacheKeyed_sync (st : Locals) (cache : gmap string Commit) :
  cacheKeyed cache -> aliasKeyed st -> cacheKeyed (syncCache st cache).
Proof.
  intros Hkeyed Halias. unfold syncCache.
  destruct (alias st) as [k|] eqn:Hk; [|exact Hkeyed].
  destruct (commit st) as [c|] eqn:Hc; [|exact Hkeyed].
  rewrite <- (Halias k c Hk Hc). apply cacheKeyed_insert. exact Hkeyed.
Qed.

(** A line leaves the pointer into the cache well keyed, and the cache
    too when the part is returned. *)
Lemma onLine_keyed (line : string) (st : Locals) (r : BlameReader) :
  cacheKeyed (commitCache r) -> aliasKeyed st ->
  match onLine line st r with
  | inl (_, r') => cacheKeyed (commitCache r')
  | inr st' => aliasKeyed st'
  end.
Proof.
  intros Hkeyed Halias. unfold onLine.
  destruct (blamePorcelainHead line) as [[sha n]|].
  - destruct (commit st) as [c|] eqn:Hc.
    + destruct (negb (String.eqb sha (SHA c))); [|exact Halias].
      simpl. apply cacheKeyed_insert, cacheKeyed_sync; assumption.
    + simpl. destruct (commitCache r !! sha) as [c|] eqn:Hcache.
      * intros k c' Hk Hc'. simpl in *. injection Hk as <-. injection Hc' as <-.
        exact (Hkeyed _ _ Hcache).
      * intros k c' Hk. discriminate.
  - destruct (commit st) as [c|] eqn:Hc; [|exact Halias].
    destruct line as [|b content]; [exact Halias|].
    destruct (Ascii.eqb b tab); intros k c' Hk Hc'; simpl in *; injection Hc' as <-.
    + exact (Halias k c Hk Hc).
    + rewrite parseBlameHeaders_SHA. exact (Halias k c Hk Hc).
Qed.

Lemma loop_keyed (fuel : nat) :
  forall st r,
    cacheKeyed (commitCache r) -> aliasKeyed st ->
    match loop fuel st r with
    | Returned _ r' => cacheKeyed (commitCache r')
    | Broke _ _ r' => cacheKeyed (commitCache r')
    | Running => True
    end.
Proof.
  induction fuel as [|fuel IH]; intros st r Hkeyed Halias; simpl; [exact I|].
  unfold nextLine.
  destruct (isEmpty (lastLine r)); simpl.
  - destruct (scanNonEmpty (scanner r)) as [[line more]|].
    + pose proof (onLine_keyed line st (withInput r "" more) Hkeyed Halias) as Hon.
      destruct (onLine line st (withInput r "" more)) as [[part r'']|st']; [exact Hon|].
      apply IH; assumption.
    + simpl. apply cacheKeyed_sync; assumption.
  - pose proof (onLine_keyed (lastLine r) st (withInput r "" (scanner r)) Hkeyed Halias)
      as Hon.
    destruct (onLine (lastLine r) st (withInput r "" (scanner r))) as [[part r'']|st'];
      [exact Hon|].
    apply IH; assumption.
Qed.

(** The cache of a reader stays keyed by the SHAs of its commits from one
    call of NextPart to the next; Blame starts with the empty cache. *)
Lemma NextPart_keeps_cache_keyed (r : BlameReader) :
  cacheKeyed (commitCache r) -> cacheKeyed (commitCache (snd (NextPart r))).
Proof.
  intros Hkeyed. unfold NextPart.
  assert (Hnone : aliasKeyed noLocals) by (intros k c H; discriminate).
  pose proof (loop_keyed (2 + length (scanner r)) noLocals r Hkeyed Hnone) as Hloop.
  destruct (loop (2 + length (scanner r)) noLocals r) as [part r'|err st r'|].
  - exact Hloop.
  - unfold afterLoop.
    repeat match goal with |- context [if ?b then _ else _] => destruct b end;
      try destruct (commit st); exact Hloop.
  - exact Hkeyed.
Qed.

(** The first header of a call opens the block of its commit. *)
Lemma onLine_first (hdr sha n : string) (r : BlameReader) :
  cacheKeyed (commitCache r) ->
  blamePorcelainHead hdr = Some (sha, n) ->
  exists c a,
    onLine hdr noLocals r = inr {| commit := Some c; alias := a; lines := [] |}
    /\ SHA c = sha.
Proof.
  intros Hkeyed Hhead. unfold onLine. rewrite Hhead. simpl.
  assert (Hlines : (if isEmpty n then [] else []) = @nil string) by (destruct (isEmpty n); reflexivity).
  rewrite Hlines.
  destruct (commitCache r !! sha) as [c|] eqn:Hcache.
  - exists c, (Some sha). split; [reflexivity | exact (Hkeyed _ _ Hcache)].
  - exists (newCommit sha), None. split; reflexivity.
Qed.

(** The first iteration of the loop reads the first pending line. *)
Lemma loop_first_pending (fuel : nat) (st : Locals) (r : BlameReader)
      (line : string) (more : list string) :
  pending r = line :: more -> isEmpty line = false ->
  loop (S fuel) st r
  = match onLine line st (withInput r "" more) with
    | inl (part, r'') => Returned part r''
    | inr st' => loop fuel st' (withInput r "" more)
    end.
Proof.
  intros Hpending Hline. unfold pending in Hpending.
  simpl. unfold nextLine.
  destruct (isEmpty (lastLine r)) eqn:Hlast; simpl in *.
  - rewrite Hpending. simpl. rewrite Hline. reflexivity.
  - injection Hpending as -> ->. reflexivity.
Qed.

Lemma pending_length (r : BlameReader) : (length (pending r) <= 1 + length (scanner r))%nat.
Proof.
  unfold pending. destruct (isEmpty (lastLine r)); simpl; lia.
Qed.



Lemma sameCommitb_true (sha line : string) :
  sameCommitb sha line = true -> sameCommit sha line.
Proof.
  unfold sameCommitb, sameCommit. intros H sha' n Hhead.
  rewrite Hhead in H. apply String.eqb_eq. exact H.
Qed.

Lemma sameCommit_forallb (sha : string) (block : list string) :
  forallb (sameCommitb sha) block = true -> Forall (sameCommit sha) block.
Proof.
  induction block as [|l block IH]; simpl; intros H; constructor.
  - apply sameCommitb_true. apply andb_prop in H. tauto.
  - apply IH. apply andb_prop in H. tauto.
Qed.

Lemma cacheKeyed_empty : cacheKeyed ∅.
Proof. intros k c H. rewrite lookup_empty in H. discriminate. Qed.

(** C4: when consecutive header lines carry the same commit SHA, NextPart
    joins their sections into one BlamePart whose Lines are all the
    tab-prefixed content lines of that commit, in order; on the header of
    another commit it returns the finished part with a nil error and pushes
    the header back, so that the next read delivers it again. *)
Theorem same_commit_sections_merge
  (r : BlameReader) (hdr : string) (block : list string) (next : string)
  (rest : list string) (sha n sha' n' : string) :
  cacheKeyed (commitCache r) ->
  pending r = hdr :: block ++ next :: rest ->
  blamePorcelainHead hdr = Some (sha, n) ->
  Forall (sameCommit sha) block ->
  blamePorcelainHead next = Some (sha', n') ->
  sha' <> sha ->
  exists part r',
    NextPart r = (Some part, None, r')
    /\ SHA (PartCommit part) = sha
    /\ Lines part = contentLines block
    /\ lastLine r' = next
    /\ scanner r' = rest
    /\ fst (nextLine r') = inr next.
Proof.
  intros Hkeyed Hpending Hhdr Hblock Hnext Hother.
  unfold NextPart.
  assert (Hlen : (length block + 2 <= 1 + length (scanner r))%nat).
  { pose proof (pending_length r) as H. rewrite Hpending in H.
    simpl in H. rewrite length_app in H. simpl in H. lia. }
  change (2 + length (scanner r))%nat with (S (S (length (scanner r)))).
  rewrite (loop_first_pending _ _ _ _ _ Hpending (head_line_nonempty _ _ _ Hhdr)).
  destruct (onLine_first hdr sha n (withInput r "" (block ++ next :: rest)) Hkeyed Hhdr)
    as (c & a & Hon & Hc).
  rewrite Hon.
  destruct (loop_block sha next sha' n' rest (scanErr r) (errReader r) Hnext Hother block
              (S (length (scanner r)))
              {| commit := Some c; alias := a; lines := [] |}
              (commitCache r) c eq_refl Hc Hblock ltac:(lia))
    as (c' & cache' & Hloop & Hc' & _).
  unfold withInput. rewrite Hloop.
  eexists. eexists. split; [reflexivity|].
  simpl. repeat split; auto.
  unfold nextLine. simpl. rewrite (head_line_nonempty _ _ _ Hnext). reflexivity.
Qed.

Lemma same_commit_sections_merge_witness :
  exists part r',
    NextPart Samples.twoSections = (Some part, None, r')
    /\ SHA (PartCommit part) = Samples.shaA
    /\ Lines part = ["line one"; "line two"]
    /\ lastLine r' = Samples.sectionB
    /\ scanner r' = [Samples.content "line three"]
    /\ fst (nextLine r') = inr Samples.sectionB.
Proof.
  apply (same_commit_sections_merge Samples.twoSections Samples.sectionA1 Samples.blockA
           Samples.sectionB [Samples.content "line three"]
           Samples.shaA "2" Samples.shaB "1").
  - exact cacheKeyed_empty.
  - reflexivity.
  - reflexivity.
  - apply sameCommit_forallb. reflexivity.
  - reflexivity.
  - discriminate.
Defined.

(** C10: at the normal end of the stream (no scanner error, nothing on
    stderr) with the block of a commit pending that holds at least one
    content line, NextPart returns that last BlamePart together with io.EOF
    in one call; a caller that drops the record whenever the error is not
    nil gets nothing from this call and so loses the part. *)
Theorem last_part_comes_with_EOF
  (r : BlameReader) (hdr : string) (block : list string) (sha n : string) :
  cacheKeyed (commitCache r) ->
  pending r = hdr :: block ->
  blamePorcelainHead hdr = Some (sha, n) ->
  Forall (sameCommit sha) block ->
  contentLines block <> [] ->
  scanErr r = None ->
  errReader r = "" ->
  exists part r',
    NextPart r = (Some part, Some EOF, r')
    /\ SHA (PartCommit part) = sha
    /\ Lines part = contentLines block
    /\ recordUnlessError (NextPart r) = None.
Proof.
  intros Hkeyed Hpending Hhdr Hblock Hcontent Hscan Hstderr.
  unfold NextPart.
  assert (Hlen : (length block + 1 <= 1 + length (scanner r))%nat).
  { pose proof (pending_length r) as H. rewrite Hpending in H. simpl in H. lia. }
  change (2 + length (scanner r))%nat with (S (S (length (scanner r)))).
  rewrite (loop_first_pending _ _ _ _ _ Hpending (head_line_nonempty _ _ _ Hhdr)).
  destruct (onLine_first hdr sha n (withInput r "" block) Hkeyed Hhdr)
    as (c & a & Hon & Hc).
  rewrite Hon.
  destruct (loop_block_end sha (scanErr r) (errReader r) block
              (S (length (scanner r)))
              {| commit := Some c; alias := a; lines := [] |}
              (commitCache r) c eq_refl Hc Hblock ltac:(lia))
    as (c' & cache' & Hloop & Hc').
  unfold withInput. rewrite Hloop.
  unfold afterLoop. simpl. rewrite Hstderr, Hscan. simpl.
  destruct (contentLines block) as [|l0 ls] eqn:Hcl; [congruence|].
  simpl. eexists. eexists. repeat split; auto.
Qed.

Lemma last_part_comes_with_EOF_witness :
  exists part r',
    NextPart Samples.lastBlock = (Some part, Some EOF, r')
    /\ SHA (PartCommit part) = Samples.shaA
    /\ Lines part = ["line one"; "line two"]
    /\ recordUnlessError (NextPart Samples.lastBlock) = None.
Proof.
  apply (last_part_comes_with_EOF Samples.lastBlock Samples.sectionA1 Samples.blockA
           Samples.shaA "2").
  - exact cacheKeyed_empty.
  - reflexivity.
  - reflexivity.
  - apply sameCommit_forallb. reflexivity.
  - discriminate.
  - reflexivity.
  - reflexivity.
Defined.

(** The index of the first separator and the text Cut returns before it. *)
Lemma IndexByte_Cut (c : ascii) (s : string) :
  (snd (Cut s c) = false /\ IndexByte s c = -1 /\ fst (fst (Cut s c)) = s)
  \/ (snd (Cut s c) = true /\ 0 <= IndexByte s c
      /\ takeBytes (Z.to_nat (IndexByte s c)) s = fst (fst (Cut s c)))%Z.
Proof.
  induction s as [|b s IH]; simpl.
  - left. repeat split; reflexivity.
  - destruct (Ascii.eqb b c).
    + right. repeat split; (lia || reflexivity).
    + destruct (Cut s c) as [[before after] found] eqn:Hcut. simpl in IH.
      destruct IH as [(Hfound & Hidx & Hall) | (Hfound & Hidx & Htake)]; subst found.
      * left. rewrite Hidx. simpl. repeat split; reflexivity.
      * right. destruct (IndexByte s c <? 0)%Z eqn:Hneg; [lia|].
        simpl. split; [reflexivity|]. split; [lia|].
        replace (Z.to_nat (IndexByte s c + 1)) with (S (Z.to_nat (IndexByte s c))) by lia.
        simpl. rewrite Htake. reflexivity.
Qed.

(** The line the classification reads is the first line of stderr unless
    stderr starts with a newline, then it is all of stderr. *)
Lemma classified_line (s : string) :
  (if (IndexByte s newline >? 0)%Z
   then takeBytes (Z.to_nat (IndexByte s newline)) s else s)
  = stderrLine s.
Proof.
  destruct s as [|b s]; [reflexivity|].
  unfold stderrLine, firstLine.
  destruct (IndexByte_Cut newline (String b s)) as [(_ & Hidx & Hall) | (_ & Hidx & Htake)].
  - rewrite Hidx. simpl (_ >? _)%Z. cbv iota.
    destruct (Ascii.eqb b newline); [reflexivity | symmetry; exact Hall].
  - simpl in *. destruct (Ascii.eqb b newline) eqn:Hb.
    + reflexivity.
    + destruct (IndexByte s newline <? 0)%Z eqn:Hneg.
      * lia.
      * assert (Hpos : (IndexByte s newline + 1 >? 0)%Z = true).
        { apply Z.gtb_lt. apply Z.ltb_ge in Hneg. lia. }
        rewrite Hpos. exact Htake.
Qed.

Lemma classifyStderr_stderrLine (s : string) :
  classifyStderr s
  = StatusError (stderrCode (TrimPrefix (stderrLine s) "fatal: "))
                (TrimPrefix (stderrLine s) "fatal: ").
Proof.
  unfold classifyStderr. rewrite classified_line. unfold stderrCode.
  destruct (Contains _ "no such path"); [reflexivity|].
  destruct (Contains _ "bad revision"); [reflexivity|].
  destruct (blamePorcelainOutOfRangeError _); reflexivity.
Qed.

(** The loop does not touch the stderr buffer. *)
Lemma loop_keeps_stderr (fuel : nat) :
  forall st r err st' r1,
    loop fuel st r = Broke err st' r1 -> errReader r1 = errReader r.
Proof.
  induction fuel as [|fuel IH]; intros st r err st' r1; simpl.
  - discriminate.
  - unfold nextLine.
    destruct (isEmpty (lastLine r)); simpl.
    + destruct (scanNonEmpty (scanner r)) as [[line more]|].
      * destruct (onLine line st _) as [[part r2]|st1]; [discriminate|].
        intros H. apply IH in H. exact H.
      * intros H. injection H as _ _ <-. reflexivity.
    + destruct (onLine (lastLine r) st _) as [[part r2]|st1]; [discriminate|].
      intros H. apply IH in H. exact H.
Qed.

(** C5 (amended): when a call of NextPart reads the stream to its end and
    the stderr buffer is not empty, the call returns no part and, in place
    of EOF, an error classified from the stderr text: NotFound if the line
    contains "no such path" or "bad revision", InvalidArgument if it ends
    in "has only N lines", Unknown otherwise. The line is the first line of
    stderr with a leading "fatal: " removed; when stderr starts with a
    newline it is all of stderr. The buffer is left empty. *)
Theorem stderr_is_classified (r : BlameReader) :
  runsToEnd r = true ->
  errReader r <> "" ->
  exists r',
    NextPart r
    = (None,
       Some (StatusError (stderrCode (TrimPrefix (stderrLine (errReader r)) "fatal: "))
                         (TrimPrefix (stderrLine (errReader r)) "fatal: ")),
       r')
    /\ errReader r' = "".
Proof.
  unfold runsToEnd, NextPart. intros Hend Hstderr.
  destruct (loop (2 + length (scanner r)) noLocals r) as [| err st r1 |] eqn:Hloop;
    try discriminate.
  pose proof (loop_keeps_stderr _ _ _ _ _ _ Hloop) as Hsame.
  unfold afterLoop. rewrite Hsame.
  destruct (errReader r) as [|b s] eqn:He; [congruence|].
  assert (Hpos : (0 <? len (String b s))%Z = true).
  { apply Z.ltb_lt. unfold len. simpl String.length. lia. }
  rewrite Hpos.
  rewrite classifyStderr_stderrLine.
  eexists. split; reflexivity.
Qed.

Lemma stderr_is_classified_witness :
  exists r',
    NextPart Samples.failedBlame
    = (None, Some (StatusError InvalidArgument "file a.txt has only 12 lines"), r')
    /\ errReader r' = "".
Proof.
  apply (stderr_is_classified Samples.failedBlame).
  - reflexivity.
  - discriminate.
Defined.

(** C5 as stated fails: stderr that starts with an empty line is not
    classified by that first line (which would give Unknown) but by all of
    its text, here NotFound. *)
Lemma blank_first_line_not_classified_by_first_line :
  runsToEnd Samples.blankFirstLine = true
  /\ errReader Samples.blankFirstLine <> ""
  /\ ~ classifiedByFirstLine Samples.blankFirstLine.
Proof.
  split; [reflexivity|]. split; [discriminate|].
  intros [r' H]. vm_compute in H. discriminate.
Qed.

End BlameProofs.

(** ** Commit listing and divergence *)
Module CommitProofs.

Import GoStr CommitAdapter CommitSpec.

Local Arguments renameOf : simpl never.




Section Rename.

Variable TrimSpace : string -> string.
Variable runGit : list string -> (error * string) + (string * string).

Local Abbreviation renameAt := (renameOf TrimSpace runGit).

(** getRenameDetails with the answers of git log named. *)
Lemma getRenameDetails_eq (commits : list Commit) (path : string) :
  getRenameDetails TrimSpace runGit commits path
  = match commits with
    | [] => ([], Done [])
    | first :: rest =>
        match renameAt (SHA first) path with
        | Fail err => ([SHA first], Fail err)
        | Panicked => ([SHA first], Panicked)
        | Done d1 =>
            let list1 := if isRename d1 then [setBefore (SHA first) d1] else [] in
            match rest with
            | [] => ([SHA first], Done list1)
            | _ :: _ =>
                let lastSHA := SHA (lastCommit first rest) in
                match renameAt lastSHA path with
                | Fail err => ([SHA first; lastSHA], Fail err)
                | Panicked => ([SHA first; lastSHA], Panicked)
                | Done dl =>
                    ([SHA first; lastSHA],
                     Done (if isRename dl then (list1 ++ [setAfter lastSHA dl])%list
                           else list1))
                end
            end
        end
    end.
Proof.
  destruct commits as [|first rest]; [reflexivity|].
  unfold getRenameDetails, CommitSpec.renameOf, giteaGetRenameDetails. simpl.
  destruct (runGit _) as [[? ?]|[? ?]]; [reflexivity|].
  destruct (getFileChangeTypeFromLog _ _) as [?|[[? ?] ?]]; [reflexivity|].
  destruct (match _ with Done _ => _ | _ => _ end) eqn:E; reflexivity.
Qed.

(** giteaGetRenameDetails leaves both commit SHAs of the record empty. *)
Lemma giteaGetRenameDetails_no_sha (ref path : string) (d : PathRenameDetails) :
  renameAt ref path = Done d -> CommitSHABefore d = "" /\ CommitSHAAfter d = "".
Proof.
  unfold CommitSpec.renameOf, giteaGetRenameDetails. simpl.
  destruct (runGit _) as [[runErr ?]|[stdout ?]]; [discriminate|].
  destruct (getFileChangeTypeFromLog _ _) as [err|[[changeType oldPath] newPath]];
    [discriminate|].
  destruct (HasPrefix changeType "R").
  - destruct oldPath, newPath; try discriminate.
    intros H. injection H as <-. split; reflexivity.
  - intros H. injection H as <-. split; reflexivity.
Qed.

Lemma len_nonempty (s : string) : s <> "" -> (len s =? 0)%Z = false.
Proof.
  destruct s; [congruence|]. intros _. apply Z.eqb_neq. unfold len. simpl. lia.
Qed.

Lemma last_default_irrelevant (c : Commit) (rest : list Commit) (d d' : Commit) :
  List.last (c :: rest) d = List.last (c :: rest) d'.
Proof.
  revert c. induction rest as [|c' rest IH]; intros c; [reflexivity|].
  change (List.last (c' :: rest) d = List.last (c' :: rest) d'). apply IH.
Qed.

Lemma last_cons_lastCommit (first : Commit) (rest : list Commit) :
  last (first :: rest) = Some (lastCommit first rest).
Proof.
  unfold lastCommit. revert first.
  induction rest as [|c rest IH]; intros first; [reflexivity|].
  change (last (first :: c :: rest)) with (last (c :: rest)).
  rewrite IH. f_equal. destruct rest as [|c' rest]; [reflexivity|].
  change (List.last (c :: c' :: rest) first) with (List.last (c' :: rest) first).
  apply last_default_irrelevant.
Qed.

(** git log is run for the first commit of the page and, when the page
    has more than one commit, for the last one; for no other. *)
Lemma getRenameDetails_queries (commits : list Commit) (path ref : string) :
  In ref (fst (getRenameDetails TrimSpace runGit commits path)) ->
  Some ref = firstSHA commits \/ Some ref = lastSHA commits.
Proof.
  rewrite getRenameDetails_eq. cbv zeta.
  destruct commits as [|first rest]; simpl; [tauto|].
  unfold firstSHA, lastSHA. rewrite last_cons_lastCommit. simpl.
  destruct (renameAt (SHA first) path) as [d1| |];
    try (simpl; intros [<-|[]]; left; reflexivity).
  destruct rest as [|c rest].
  - simpl. intros [<-|[]]. left. reflexivity.
  - destruct (renameAt (SHA (lastCommit first (c :: rest))) path);
      simpl; intros [<-|[<-|[]]]; auto.
Qed.

(** What cleanupCommitsForRename makes of the page, read off the rename
    of the first commit. *)
Lemma ListCommits_cleaned (first : Commit) (rest cleaned : list Commit)
      (details : list PathRenameDetails) (path : string) (d1 : PathRenameDetails) :
  path <> "" -> SHA first <> "" ->
  renameAt (SHA first) path = Done d1 ->
  snd (ListCommits TrimSpace runGit (first :: rest) path) = Done (cleaned, details) ->
  cleaned = if String.eqb (OldPath d1) path then rest else first :: rest.
Proof.
  intros Hpath Hsha Hd1. unfold ListCommits. rewrite (len_nonempty _ Hpath).
  simpl negb. cbv iota.
  rewrite getRenameDetails_eq, Hd1. cbv zeta.
  assert (Hkey : forall tl,
             Forall (fun d => CommitSHABefore d = "") tl ->
             existsb (isBeforeSide first path)
               ((if isRename d1 then [setBefore (SHA first) d1] else []) ++ tl)
             = String.eqb (OldPath d1) path).
  { intros tl Htl.
    assert (Htail : existsb (isBeforeSide first path) tl = false).
    { induction Htl as [|d tl Hd _ IH]; [reflexivity|]. simpl. rewrite IH, orb_false_r.
      unfold isBeforeSide. rewrite Hd.
      replace (String.eqb (SHA first) "") with false; [reflexivity|].
      symmetry. apply String.eqb_neq. exact Hsha. }
    rewrite existsb_app, Htail, orb_false_r.
    destruct (String.eqb (OldPath d1) path) eqn:Hold.
    - apply String.eqb_eq in Hold.
      assert (Hren : isRename d1 = true).
      { unfold isRename. rewrite Hold. destruct path; [congruence|].
        simpl. apply orb_true_r. }
      rewrite Hren. simpl. unfold isBeforeSide. simpl.
      rewrite String.eqb_refl, Hold, String.eqb_refl. reflexivity.
    - destruct (isRename d1); [|reflexivity]. simpl. unfold isBeforeSide. simpl.
      rewrite (String.eqb_sym path (OldPath d1)), Hold, andb_false_r. reflexivity. }
  destruct rest as [|c rest].
  - simpl. intros H. injection H as <- _.
    specialize (Hkey [] (List.Forall_nil _)). rewrite app_nil_r in Hkey.
    rewrite Hkey. reflexivity.
  - destruct (renameAt (SHA (lastCommit first (c :: rest))) path) as [dl| |] eqn:Hdl;
      try discriminate.
    simpl. intros H. injection H as <- _.
    destruct (giteaGetRenameDetails_no_sha _ _ _ Hdl) as [Hbefore _].
    destruct (isRename dl).
    + rewrite Hkey; [reflexivity|]. constructor; [exact Hbefore | constructor].
    + specialize (Hkey [] (List.Forall_nil _)). rewrite app_nil_r in Hkey.
      rewrite Hkey. reflexivity.
Qed.

(** The cleaned page is the page or the page without its first commit. *)
Lemma ListCommits_sublist (commits cleaned : list Commit)
      (details : list PathRenameDetails) (path : string) :
  snd (ListCommits TrimSpace runGit commits path) = Done (cleaned, details) ->
  cleaned = commits \/ cleaned = tl commits.
Proof.
  unfold ListCommits. destruct (negb (len path =? 0)%Z).
  - destruct (getRenameDetails TrimSpace runGit commits path) as [q [ds| |]];
      simpl; try discriminate.
    intros H. injection H as <- _.
    unfold cleanupCommitsForRename. destruct commits as [|first rest]; [auto|].
    destruct (existsb _ ds); auto.
  - simpl. intros H. injection H as <- _. auto.
Qed.

Lemma NoDup_tl {A} (l : list A) : List.NoDup l -> List.NoDup (tl l).
Proof. destruct l; [auto|]. simpl. intros H. inversion H; assumption. Qed.

Lemma map_tl {A B} (f : A -> B) (l : list A) : map f (tl l) = tl (map f l).
Proof. destruct l; reflexivity. Qed.

Lemma In_tl {A} (x : A) (l : list A) : In x (tl l) -> In x l.
Proof. destruct l; simpl; auto. Qed.

Lemma NoDup_app_disjoint {A} (l1 l2 : list A) :
  List.NoDup l1 -> List.NoDup l2 -> (forall x, In x l1 -> ~ In x l2) -> List.NoDup (l1 ++ l2).
Proof.
  induction l1 as [|a l1 IH]; simpl; intros H1 H2 Hdis; [exact H2|].
  inversion H1 as [|? ? Hnotin Hnodup]; subst.
  constructor.
  - rewrite in_app_iff. intros [Hin|Hin]; [contradiction|].
    apply (Hdis a); [left; reflexivity | exact Hin].
  - apply IH; auto.
Qed.

(** For a listing with a path filter, (1) git log is asked for rename
    details only for the first and the last commit of the page; (2) the
    leading commit is removed exactly when the rename details read for it
    name the filtered path as the old path; (3) so when these details do
    so for the first commit of the page of the old path, which another
    page (of the new path) also lists, and the two pages share no other
    commit, no SHA appears twice in the two cleaned pages together. *)
Theorem rename_boundary_is_deduplicated (path : string) :
  path <> "" ->
  (forall commits ref,
      In ref (fst (ListCommits TrimSpace runGit commits path)) ->
      Some ref = firstSHA commits \/ Some ref = lastSHA commits)
  /\ (forall first rest cleaned details d1,
         SHA first <> "" ->
         renameAt (SHA first) path = Done d1 ->
         snd (ListCommits TrimSpace runGit (first :: rest) path) = Done (cleaned, details) ->
         (OldPath d1 = path -> cleaned = rest)
         /\ (OldPath d1 <> path -> cleaned = first :: rest))
  /\ (forall pageNew newPath first restOld cleanedNew detailsNew cleanedOld detailsOld d1,
         SHA first <> "" ->
         renameAt (SHA first) path = Done d1 ->
         OldPath d1 = path ->
         snd (ListCommits TrimSpace runGit pageNew newPath) = Done (cleanedNew, detailsNew) ->
         snd (ListCommits TrimSpace runGit (first :: restOld) path)
         = Done (cleanedOld, detailsOld) ->
         List.NoDup (shas pageNew) ->
         List.NoDup (shas (first :: restOld)) ->
         (forall sha, In sha (shas pageNew) -> ~ In sha (shas restOld)) ->
         List.NoDup (shas (cleanedNew ++ cleanedOld))).
Proof.
  intros Hpath. split; [|split].
  - intros commits ref. unfold ListCommits. rewrite (len_nonempty _ Hpath).
    simpl negb. cbv iota.
    pose proof (getRenameDetails_queries commits path ref) as Hq.
    destruct (getRenameDetails TrimSpace runGit commits path) as [q [ds| |]];
      simpl in *; exact Hq.
  - intros first rest cleaned details d1 Hsha Hd1 Hlist.
    rewrite (ListCommits_cleaned _ _ _ _ _ _ Hpath Hsha Hd1 Hlist).
    split; intros Hold.
    + rewrite Hold, String.eqb_refl. reflexivity.
    + apply String.eqb_neq in Hold. rewrite Hold. reflexivity.
  - intros pageNew newPath first restOld cleanedNew detailsNew cleanedOld detailsOld d1
           Hsha Hd1 Hold Hnew Hlist HnodupNew HnodupOld Hdisjoint.
    rewrite (ListCommits_cleaned _ _ _ _ _ _ Hpath Hsha Hd1 Hlist).
    rewrite Hold, String.eqb_refl.
    unfold shas in *. rewrite map_app.
    inversion HnodupOld as [|? ? _ HnodupRest]; subst.
    apply NoDup_app_disjoint; [| exact HnodupRest |].
    + destruct (ListCommits_sublist _ _ _ _ Hnew) as [-> | ->]; [exact HnodupNew|].
      rewrite map_tl. apply NoDup_tl. exact HnodupNew.
    + intros sha Hin. apply Hdisjoint.
      destruct (ListCommits_sublist _ _ _ _ Hnew) as [-> | ->]; [exact Hin|].
      rewrite map_tl in Hin. apply In_tl. exact Hin.
Qed.

End Rename.

Lemma rename_boundary_is_deduplicated_witness :
  (forall ref,
      In ref (fst (ListCommits CommitSamples.TrimSpace CommitSamples.renameLog
                     CommitSamples.pageOld "old.txt")) ->
      ref = "r1" \/ ref = "o1")
  /\ snd (ListCommits CommitSamples.TrimSpace CommitSamples.renameLog
            CommitSamples.pageOld "old.txt")
     = Done ([CommitSamples.commitOf "o2"; CommitSamples.commitOf "o1"],
             [{| OldPath := "old.txt"; NewPath := "new.txt";
                 CommitSHABefore := "r1"; CommitSHAAfter := "" |}])
  /\ List.NoDup (shas (CommitSamples.pageNew
                  ++ [CommitSamples.commitOf "o2"; CommitSamples.commitOf "o1"])).
Proof.
  destruct (rename_boundary_is_deduplicated CommitSamples.TrimSpace CommitSamples.renameLog
              "old.txt" ltac:(discriminate)) as (Hqueries & Hcleaned & Hnodup).
  split; [|split].
  - intros ref Hin. destruct (Hqueries _ _ Hin) as [H|H]; injection H as ->; auto.
  - reflexivity.
  - apply (Hnodup CommitSamples.pageNew "new.txt" (CommitSamples.commitOf "r1")
             [CommitSamples.commitOf "o2"; CommitSamples.commitOf "o1"]
             CommitSamples.pageNew
             [{| OldPath := "old.txt"; NewPath := "new.txt";
                 CommitSHABefore := ""; CommitSHAAfter := "r1" |}]
             [CommitSamples.commitOf "o2"; CommitSamples.commitOf "o1"]
             [{| OldPath := "old.txt"; NewPath := "new.txt";
                 CommitSHABefore := "r1"; CommitSHAAfter := "" |}]
             {| OldPath := "old.txt"; NewPath := "new.txt";
                CommitSHABefore := ""; CommitSHAAfter := "" |}).
    + discriminate.
    + reflexivity.
    + reflexivity.
    + reflexivity.
    + reflexivity.
    + repeat constructor; simpl; intuition discriminate.
    + repeat constructor; simpl; intuition discriminate.
    + simpl. intros sha H1 H2. intuition (subst; discriminate).
Defined.

(** C6 on a commit that renames old.txt to new.txt and also changes
    gold.txt: git log reports the rename of old.txt for the leading commit
    "r1" of the page of old.txt, but the rename details are read from the
    first line that holds the path as a part of its text, the line of
    gold.txt. No rename is found, the leading commit stays, and "r1" is
    listed in the cleaned pages of both the old and the new path. *)
Theorem rename_beside_similar_path_is_listed_twice :
  let runGit := CommitSamples.renameBesideGoldLog in
  let TrimSpace := CommitSamples.TrimSpace in
  isBeforeSideOfRename runGit "r1" "old.txt"
  /\ getFileChangeTypeFromLog
       (parseLinesToSlice TrimSpace
          ("M" ++ String tab ("gold.txt" ++ String newline
             ("R100" ++ String tab ("old.txt" ++ String tab
                ("new.txt" ++ String newline ""))))))
       "old.txt"
     = inr ("M", None, None)
  /\ snd (ListCommits TrimSpace runGit CommitSamples.pageOld "old.txt")
     = Done (CommitSamples.pageOld, [])
  /\ snd (ListCommits TrimSpace runGit CommitSamples.pageNew "new.txt")
     = Done (CommitSamples.pageNew,
             [{| OldPath := "old.txt"; NewPath := "new.txt";
                 CommitSHABefore := ""; CommitSHAAfter := "r1" |}])
  /\ List.NoDup (shas CommitSamples.pageOld)
  /\ List.NoDup (shas CommitSamples.pageNew)
  /\ (forall sha, In sha (shas CommitSamples.pageNew) ->
                  In sha (shas CommitSamples.pageOld) -> sha = "r1")
  /\ ~ leadingRemovedWhenRenamed TrimSpace runGit CommitSamples.pageOld "old.txt"
  /\ ~ noSHATwice TrimSpace runGit CommitSamples.pageNew "new.txt"
        CommitSamples.pageOld "old.txt".
Proof.
  cbv zeta.
  assert (Hbefore : isBeforeSideOfRename CommitSamples.renameBesideGoldLog "r1" "old.txt").
  { eexists; eexists. exists ("R100" ++ String tab ("old.txt" ++ String tab "new.txt")).
    exists "new.txt". split; [reflexivity|]. split.
    - vm_compute. right. left. reflexivity.
    - exists "100". reflexivity. }
  assert (Hold : snd (ListCommits CommitSamples.TrimSpace CommitSamples.renameBesideGoldLog
                        CommitSamples.pageOld "old.txt")
                 = Done (CommitSamples.pageOld, [])) by reflexivity.
  assert (Hnew : snd (ListCommits CommitSamples.TrimSpace CommitSamples.renameBesideGoldLog
                        CommitSamples.pageNew "new.txt")
                 = Done (CommitSamples.pageNew,
                         [{| OldPath := "old.txt"; NewPath := "new.txt";
                             CommitSHABefore := ""; CommitSHAAfter := "r1" |}]))
    by reflexivity.
  repeat (split; [first [ exact Hbefore | exact Hold | exact Hnew | reflexivity
                        | repeat constructor; simpl; intuition discriminate ] |]).
  split; [|split].
  - simpl. intros sha Hn Ho. intuition (subst; try reflexivity; discriminate).
  - intros Hstated.
    pose proof (proj1 (Hstated _ _ _ _ eq_refl Hold) Hbefore) as Hremoved.
    discriminate Hremoved.
  - intros Hstated. specialize (Hstated _ _ _ _ Hnew Hold).
    unfold shas in Hstated. simpl in Hstated.
    inversion Hstated as [|? ? _ H1]; subst.
    inversion H1 as [|? ? _ H2]; subst.
    inversion H2 as [|? ? Hnotin _]; subst.
    apply Hnotin. left. reflexivity.
Qed.

End CommitProofs.

(** ** Branch protection rules *)
Module ProtectionProofs.

Import Protection ProtectionSpec.

Lemma setBypassed_map (b : bool) (violations : list RuleViolations) :
  Forall (fun v => Bypassed v = b) (map (setBypassed b) violations).
Proof.
  induction violations as [|v violations IH]; simpl; constructor; auto.
Qed.

(** Violations that are all bypassed are not critical. *)
Lemma bypassed_not_critical (violations : list RuleViolations) :
  Forall (fun v => Bypassed v = true) violations -> IsCritical violations = false.
Proof.
  unfold IsCritical. induction 1 as [|v violations Hv _ IH]; simpl; [reflexivity|].
  unfold ruleIsCritical at 1. rewrite Hv. simpl. exact IH.
Qed.

Lemma setBypassed_findings (b : bool) (violations : list RuleViolations) :
  sameFindings (map (setBypassed b) violations) violations.
Proof.
  unfold sameFindings.
  induction violations as [|v violations [IHr IHv]]; simpl; [auto|].
  rewrite IHr, IHv. auto.
Qed.

(** Without bypass an entry is critical exactly when it holds a
    violation. *)
Lemma unbypassed_critical (violations : list RuleViolations) :
  IsCritical (map (setBypassed false) violations) = existsb hasViolation violations.
Proof.
  unfold IsCritical. induction violations as [|v violations IH]; simpl; [reflexivity|].
  rewrite IH. reflexivity.
Qed.

Lemma flaggedWith_sameFlag (b : bool) (violations : list RuleViolations) :
  flaggedWith b violations -> sameFlag violations.
Proof.
  unfold flaggedWith, sameFlag. intros Hall x y Hx Hy.
  rewrite List.Forall_forall in Hall. rewrite (Hall x Hx), (Hall y Hy). reflexivity.
Qed.

(** What a list flagged with [b] from the findings [produced] gives. *)
Lemma flagged_findings (b : bool) (produced : list RuleViolations) :
  sameFindings (map (setBypassed b) produced) produced
  /\ flaggedWith b (map (setBypassed b) produced)
  /\ sameFlag (map (setBypassed b) produced)
  /\ (b = true -> IsCritical (map (setBypassed b) produced) = false)
  /\ (b = false ->
      IsCritical (map (setBypassed b) produced) = existsb hasViolation produced).
Proof.
  split; [apply setBypassed_findings|].
  split; [apply setBypassed_map|].
  split; [apply (flaggedWith_sameFlag b), setBypassed_map|].
  split.
  - intros ->. apply bypassed_not_critical, setBypassed_map.
  - intros ->. apply unbypassed_critical.
Qed.

Section BranchRule.

Variables DefBypass DefPullReq DefLifecycle : Type.
Variable bypassMatches : DefBypass -> option Principal -> bool -> bool.
Variable pullReqMergeVerify :
  DefPullReq -> MergeVerifyInput ->
  MergeVerifyOutput * list RuleViolations * option error.
Variable lifecycleRefChangeVerify :
  DefLifecycle -> RefChangeVerifyInput -> list RuleViolations * option error.

Local Abbreviation mergeVerify := (BranchMergeVerify bypassMatches pullReqMergeVerify).
Local Abbreviation refChangeVerify :=
  (BranchRefChangeVerify bypassMatches lifecycleRefChangeVerify).

(** C9 (amended): an evaluation of a branch rule by MergeVerify whose pull
    request verification returns no error, and every evaluation by
    RefChangeVerify, returns the violations the inner verification
    produced, rule by rule and in their order, and gives every entry the
    same Bypassed flag: true exactly when the caller allowed bypass and
    the actor matches the bypass policy of the rule, repository ownership
    included. No two entries differ in the flag; when the flag is true the
    result is not critical, so it does not block, and when it is false the
    result is critical as soon as an entry holds a violation. The output
    and the error of the inner verification are handed on. A MergeVerify
    whose pull request verification returns an error hands back the whole
    answer of that verification as it is. RefChangeVerify answers with no
    entry and no error for a ref that is not a branch or without names. *)
Theorem bypass_is_uniform
  (v : Branch DefBypass DefPullReq DefLifecycle)
  (mi : MergeVerifyInput) (ri : RefChangeVerifyInput) :
  let mergePart := pullReqMergeVerify (PullReqDef v) mi in
  let merged := snd (fst (mergeVerify v mi)) in
  let mergeBypassed :=
    MVAllowBypass mi && bypassMatches (Bypass v) (MVActor mi) (MVIsRepoOwner mi) in
  let evaluated := isBranch (RCRefType ri) && negb (Nat.eqb (length (RCRefNames ri)) 0) in
  let refPart := lifecycleRefChangeVerify (Lifecycle v) ri in
  let produced := if evaluated then fst refPart else [] in
  let changed := fst (refChangeVerify v ri) in
  let refBypassed :=
    RCAllowBypass ri && bypassMatches (Bypass v) (RCActor ri) (RCIsRepoOwner ri) in
  (snd mergePart = None ->
   fst (fst (mergeVerify v mi)) = fst (fst mergePart)
   /\ snd (mergeVerify v mi) = None
   /\ sameFindings merged (snd (fst mergePart))
   /\ flaggedWith mergeBypassed merged
   /\ sameFlag merged
   /\ (mergeBypassed = true -> IsCritical merged = false)
   /\ (mergeBypassed = false ->
       IsCritical merged = existsb hasViolation (snd (fst mergePart))))
  /\ (snd mergePart <> None -> mergeVerify v mi = mergePart)
  /\ snd (refChangeVerify v ri) = (if evaluated then snd refPart else None)
  /\ sameFindings changed produced
  /\ flaggedWith refBypassed changed
  /\ sameFlag changed
  /\ (refBypassed = true -> IsCritical changed = false)
  /\ (refBypassed = false -> IsCritical changed = existsb hasViolation produced).
Proof.
  cbv zeta. split; [|split].
  - unfold BranchMergeVerify.
    destruct (pullReqMergeVerify (PullReqDef v) mi) as [[out produced] [err|]];
      simpl; [discriminate|].
    intros _. split; [reflexivity|]. split; [reflexivity|]. apply flagged_findings.
  - unfold BranchMergeVerify.
    destruct (pullReqMergeVerify (PullReqDef v) mi) as [[out produced] [err|]];
      simpl; [reflexivity | congruence].
  - unfold BranchRefChangeVerify.
    destruct (isBranch (RCRefType ri)); simpl.
    + destruct (Nat.eqb (length (RCRefNames ri)) 0); simpl.
      * split; [reflexivity|]. apply (flagged_findings _ []).
      * destruct (lifecycleRefChangeVerify (Lifecycle v) ri) as [produced err]. simpl.
        split; [reflexivity|]. apply flagged_findings.
    + split; [reflexivity|]. apply (flagged_findings _ []).
Qed.

End BranchRule.

Lemma bypass_is_uniform_witness :
  snd (fst (BranchMergeVerify ProtectionSamples.sampleMatches
              ProtectionSamples.samplePullReqVerify ProtectionSamples.sampleRule
              (ProtectionSamples.verifyInput true)))
  = [setBypassed true (ProtectionSamples.violationsOf "rule-1" "needs approval");
     setBypassed true (ProtectionSamples.violationsOf "rule-1" "needs checks")]
  /\ flaggedWith true
       (snd (fst (BranchMergeVerify ProtectionSamples.sampleMatches
                    ProtectionSamples.samplePullReqVerify ProtectionSamples.sampleRule
                    (ProtectionSamples.verifyInput true))))
  /\ IsCritical
       (snd (fst (BranchMergeVerify ProtectionSamples.sampleMatches
                    ProtectionSamples.samplePullReqVerify ProtectionSamples.sampleRule
                    (ProtectionSamples.verifyInput true)))) = false
  /\ IsCritical
       (snd (fst (BranchMergeVerify ProtectionSamples.sampleMatches
                    ProtectionSamples.samplePullReqVerify ProtectionSamples.sampleRule
                    (ProtectionSamples.verifyInput false)))) = true.
Proof.
  destruct (bypass_is_uniform _ _ _ ProtectionSamples.sampleMatches
              ProtectionSamples.samplePullReqVerify ProtectionSamples.sampleLifecycleVerify
              ProtectionSamples.sampleRule (ProtectionSamples.verifyInput true)
              {| RCActor := Some ProtectionSamples.alice; RCAllowBypass := true;
                 RCIsRepoOwner := false; RCRefType := RefTypeBranch;
                 RCRefNames := ["main"] |})
    as (Hmerge & _).
  destruct (Hmerge eq_refl) as (_ & _ & _ & Hflags & _ & Hfree & _).
  destruct (bypass_is_uniform _ _ _ ProtectionSamples.sampleMatches
              ProtectionSamples.samplePullReqVerify ProtectionSamples.sampleLifecycleVerify
              ProtectionSamples.sampleRule (ProtectionSamples.verifyInput false)
              {| RCActor := Some ProtectionSamples.alice; RCAllowBypass := false;
                 RCIsRepoOwner := false; RCRefType := RefTypeBranch;
                 RCRefNames := ["main"] |})
    as (Hblocked & _).
  destruct (Hblocked eq_refl) as (_ & _ & _ & _ & _ & _ & Hcritical).
  split; [reflexivity|]. split; [exact Hflags|].
  split; [apply Hfree; reflexivity|].
  rewrite Hcritical; reflexivity.
Defined.

(** C9 as stated fails for an evaluation that ends with an error: the
    pull request verification finds a violation and then fails, the caller
    allowed bypass and the actor matches the bypass policy, but MergeVerify
    returns before it sets the flag, so the violation comes back with
    Bypassed false. *)
Lemma failed_verification_is_not_flagged :
  ~ mergeVerifyFlagsEveryEvaluation ProtectionSamples.sampleMatches
      ProtectionSamples.failingPullReqVerify ProtectionSamples.sampleRule.
Proof.
  intros Hstated. specialize (Hstated (ProtectionSamples.verifyInput true)).
  vm_compute in Hstated. inversion Hstated as [|? ? Hflag _]. discriminate Hflag.
Qed.

End ProtectionProofs.

(** ** The merge controller *)
Module MergeProofs.

Import Eff Protection PullReqController MergeSpec.

(** Case analysis on the answer the controller is waiting for. *)
Ltac next_answer :=
  match goal with
  | |- context [match ?x with _ => _ end] =>
      lazymatch x with
      | context [match _ with _ => _ end] => fail
      | _ => destruct x eqn:?
      end
  | |- context [if ?x then _ else _] =>
      lazymatch x with
      | context [match _ with _ => _ end] => fail
      | context [if _ then _ else _] => fail
      | _ => destruct x eqn:?
      end
  end.

(** The call is among the calls of a run on sample collaborators. *)
Ltac find_call := vm_compute; repeat (first [left; reflexivity | right]).

Ltac run_merge :=
  unfold Merge, mergeLocked, sourceParams, dryRun, doMerge, run, defer, exitIf, check,
    call, exit, pure, bind;
  repeat (cbn -[String.eqb IsCritical mergeTitle markMerged]; try next_answer).

(** C1: when the verification of the protection rules returns critical
    violations (and no error), Merge returns these violations with no
    response and a nil error, and the run holds no git write (merge or
    branch deletion) and no change of the stored pull request. *)
Theorem critical_violations_block_merge
  (env : Env) (session : Session) (repoRef : string) (pullreqNum : Z) (i : MergeInput)
  (vin : MergeVerifyInput) (out : MergeVerifyOutput) (violations : list RuleViolations) :
  In (RulesMergeVerify vin (out, violations, None))
     (fst (Merge env session repoRef pullreqNum i)) ->
  IsCritical violations = true ->
  snd (Merge env session repoRef pullreqNum i)
  = (None, Some {| ConflictFiles := []; MVRuleViolations := violations |}, None)
  /\ noGitWrite (fst (Merge env session repoRef pullreqNum i))
  /\ noPullReqMutation (fst (Merge env session repoRef pullreqNum i)).
Proof.
  revert vin out violations.
  run_merge;
    intros vin out violations Hin Hcritical; simpl in Hin;
    repeat (destruct Hin as [Hin|Hin];
            [first [ discriminate Hin
                   | inversion Hin; subst;
                     first [ congruence
                           | split; [reflexivity | split; repeat constructor] ] ] |]);
    contradiction.
Qed.

Lemma critical_violations_block_merge_witness :
  snd (Merge (MergeSamples.envOf ProtectionSamples.openPullReq
                (MergeSamples.rulesWith MergeSamples.criticalViolations))
         MergeSamples.session "space/target" 3 (MergeSamples.mergeInput "abc123"))
  = (None,
     Some {| ConflictFiles := []; MVRuleViolations := MergeSamples.criticalViolations |},
     None)
  /\ noGitWrite
       (fst (Merge (MergeSamples.envOf ProtectionSamples.openPullReq
                      (MergeSamples.rulesWith MergeSamples.criticalViolations))
               MergeSamples.session "space/target" 3 (MergeSamples.mergeInput "abc123")))
  /\ noPullReqMutation
       (fst (Merge (MergeSamples.envOf ProtectionSamples.openPullReq
                      (MergeSamples.rulesWith MergeSamples.criticalViolations))
               MergeSamples.session "space/target" 3 (MergeSamples.mergeInput "abc123"))).
Proof.
  apply (critical_violations_block_merge
           (MergeSamples.envOf ProtectionSamples.openPullReq
              (MergeSamples.rulesWith MergeSamples.criticalViolations))
           MergeSamples.session "space/target" 3 (MergeSamples.mergeInput "abc123")
           {| MVActor := Some ProtectionSamples.alice;
              MVAllowBypass := false;
              MVIsRepoOwner := false;
              MVTargetRepo := ProtectionSamples.targetRepo;
              MVSourceRepo := ProtectionSamples.sourceRepo;
              MVPullReq := ProtectionSamples.openPullReq;
              MVReviewers := [];
              MVMethod := "merge";
              MVCheckResults := [];
              MVCodeOwners := None |}
           {| DeleteSourceBranch := true |}
           MergeSamples.criticalViolations).
  - find_call.
  - reflexivity.
Defined.

Ltac stale_contradiction :=
  match goal with
  | H : negb (String.eqb _ _) = false |- _ =>
      apply negb_false_iff in H; apply String.eqb_eq in H; contradiction
  end.

Ltac stale_leaf :=
  first
    [ exfalso; stale_contradiction
    | split; [repeat constructor |];
      split; [repeat constructor |];
      split; [eexists; reflexivity |];
      let Hmerged := fresh in
      let Hopen := fresh in
      intros Hmerged Hopen;
      first
        [ reflexivity
        | match goal with
          | H : isSome (Merged _) = true |- _ =>
              rewrite Hmerged in H; discriminate H
          | H : negb (isOpen (State _)) = true |- _ =>
              rewrite Hopen in H; discriminate H
          end ] ].

(** C2 (amended): a merge request whose SourceSHA differs from the
    SourceSHA of the pull request as re-read under the lock is rejected
    with an error and the run holds no git write and no change of the
    stored pull request; when that pull request is open and not yet
    merged, the error is the bad request "A newer commit is available.
    Only the latest commit can be merged.". *)
Theorem stale_merge_is_rejected
  (env : Env) (session : Session) (repoRef : string) (pullreqNum : Z) (i : MergeInput)
  (repoID : Z) (pr : PullReq) :
  In (PullReqFindByNumber repoID pullreqNum (inr pr))
     (fst (Merge env session repoRef pullreqNum i)) ->
  SourceSHA pr <> InSourceSHA i ->
  noGitWrite (fst (Merge env session repoRef pullreqNum i))
  /\ noPullReqMutation (fst (Merge env session repoRef pullreqNum i))
  /\ (exists err, snd (Merge env session repoRef pullreqNum i) = failWith err)
  /\ (Merged pr = None -> State pr = PullReqStateOpen ->
      snd (Merge env session repoRef pullreqNum i)
      = failWith (BadRequest newerCommitMessage)).
Proof.
  revert repoID pr.
  run_merge;
    intros repoID pr Hin Hstale; simpl in Hin;
    repeat (destruct Hin as [Hin|Hin];
            [first [ discriminate Hin | inversion Hin; subst; stale_leaf ] |]);
    contradiction.
Qed.

Lemma stale_merge_is_rejected_witness :
  noGitWrite
    (fst (Merge (MergeSamples.envOf ProtectionSamples.openPullReq (MergeSamples.rulesWith []))
            MergeSamples.session "space/target" 3 (MergeSamples.mergeInput "000000")))
  /\ snd (Merge (MergeSamples.envOf ProtectionSamples.openPullReq (MergeSamples.rulesWith []))
            MergeSamples.session "space/target" 3 (MergeSamples.mergeInput "000000"))
     = failWith (BadRequest newerCommitMessage).
Proof.
  destruct (stale_merge_is_rejected
              (MergeSamples.envOf ProtectionSamples.openPullReq (MergeSamples.rulesWith []))
              MergeSamples.session "space/target" 3 (MergeSamples.mergeInput "000000")
              1 ProtectionSamples.openPullReq)
    as (Hgit & _ & _ & Hmessage).
  - find_call.
  - discriminate.
  - split; [exact Hgit | apply Hmessage; reflexivity].
Defined.

(** C2 as stated fails: a stale request for a pull request that is
    already merged is answered "Pull request already merged". *)
Lemma stale_merge_of_merged_pull_request :
  ~ staleRejectedAsNewerCommit
      (MergeSamples.envOf MergeSamples.mergedPullReq (MergeSamples.rulesWith []))
      MergeSamples.session "space/target" 3 (MergeSamples.mergeInput "000000").
Proof.
  intros Hstated.
  destruct (Hstated 1 MergeSamples.mergedPullReq) as [Hmsg _].
  - find_call.
  - discriminate.
  - vm_compute in Hmsg. discriminate Hmsg.
Qed.

(** In every run the branch deletion carries the write parameters made
    for the target repository, also when the source repository is a fork:
    the parameters named for the source are made from [sourceRepo] while it
    still holds the target repository. *)
Lemma branch_deletion_params_are_target_params
  (env : Env) (session : Session) (repoRef : string) (pullreqNum : Z) (i : MergeInput)
  (targetRepo : Repository) (deletion : DeleteBranchParams) :
  getRepoCheckAccess env session repoRef = inr targetRepo ->
  In (GitDeleteBranch deletion) (fst (Merge env session repoRef pullreqNum i)) ->
  ControllerUtil.CreateRPCInternalWriteParams (internalAPIURL env)
    (generateEnvironmentVariables env) session targetRepo
  = inr (DBWriteParams deletion).
Proof.
  revert targetRepo deletion.
  run_merge;
    intros targetRepo deletion Haccess Hin; simpl in Hin;
    repeat (destruct Hin as [Hin|Hin];
            [first [ discriminate Hin
                   | inversion Hin; subst; simpl; congruence ] |]);
    contradiction.
Qed.

(** C3 on a pull request from a fork whose rules ask for the deletion of
    the source branch: the branch deletion is sent with write parameters
    made for the target repository (its git UID and hook variables), not
    for the source repository. *)
Theorem fork_branch_deletion_uses_target_params :
  let env := MergeSamples.envOf ProtectionSamples.openPullReq (MergeSamples.rulesWith []) in
  let calls := fst (Merge env MergeSamples.session "space/target" 3
                      (MergeSamples.mergeInput "abc123")) in
  exists p,
    In (GitDeleteBranch p) calls
    /\ BranchName p = "feature"
    /\ ControllerUtil.CreateRPCInternalWriteParams (internalAPIURL env)
         (generateEnvironmentVariables env) MergeSamples.session ProtectionSamples.targetRepo
       = inr (DBWriteParams p)
    /\ RepoUID (DBWriteParams p) = "target-git-uid"
    /\ GitUID ProtectionSamples.sourceRepo = "source-git-uid"
    /\ ~ deletesWithSourceParams env ProtectionSamples.sourceRepo calls.
Proof.
  eexists. split; [find_call|].
  repeat split.
  intros Hstated.
  specialize (Hstated _ ltac:(find_call)).
  vm_compute in Hstated. discriminate Hstated.
Qed.

End MergeProofs.

(** ** base64 decoding *)
Module Base64Proofs.

Import Base64.

(** A quantum that leaves input behind has read some of it. *)
Lemma decodeQuantum_rest (total : Z) (src : string) :
  forall dbuf si decoded rest si',
    decodeQuantum total dbuf src si = QBytes decoded rest si' ->
    rest = "" \/ (String.length rest < String.length src)%nat.
Proof.
  induction src as [|c src IH]; intros dbuf si decoded rest si'; simpl.
  - destruct (Nat.eqb (length dbuf) 0); [|discriminate].
    intros H. injection H as _ <- _. left. reflexivity.
  - destruct (decodeMap c) as [out|].
    + destruct (Nat.eqb (length dbuf) 3).
      * intros H. injection H as _ <- _. right. lia.
      * intros H. apply IH in H. destruct H as [H|H]; [left; exact H | right; lia].
    + destruct (isNewline c).
      * intros H. apply IH in H. destruct H as [H|H]; [left; exact H | right; lia].
      * destruct (negb (Ascii.eqb c "=")); [discriminate|].
        destruct (length dbuf) as [|[|j]]; try discriminate.
        destruct (if Nat.eqb (S (S j)) 2 then _ else _) as [offset|[rest1 si1]];
          [discriminate|].
        destruct (skipNewlines rest1 si1) as [rest2 si2].
        destruct rest2; [|discriminate].
        intros H. injection H as _ <- _. left. reflexivity.
Qed.

Lemma decodeLoop_step (total : Z) (fuel : nat) (c : ascii) (src : string) (si : Z) :
  decodeLoop (S fuel) total (String c src) si
  = match decodeQuantum total [] (String c src) si with
    | QCorrupt offset => inl offset
    | QBytes decoded rest si' =>
        match decodeLoop fuel total rest si' with
        | inl offset => inl offset
        | inr more => inr (decoded ++ more)
        end
    end.
Proof. reflexivity. Qed.

(** The loop of Decode ends within the fuel DecodeString gives it: more
    fuel does not change the result. *)
Lemma decodeLoop_fuel (total : Z) (fuel1 : nat) :
  forall fuel2 src si,
    (String.length src <= fuel1)%nat -> (String.length src <= fuel2)%nat ->
    decodeLoop fuel1 total src si = decodeLoop fuel2 total src si.
Proof.
  induction fuel1 as [|fuel1 IH]; intros fuel2 src si H1 H2.
  - destruct src; [|simpl in H1; lia]. destruct fuel2; reflexivity.
  - destruct src as [|c src]; [destruct fuel2; reflexivity|].
    destruct fuel2 as [|fuel2]; [simpl in H2; lia|].
    rewrite !decodeLoop_step.
    destruct (decodeQuantum total [] (String c src) si) as [decoded rest si'|offset] eqn:Hq;
      [|reflexivity].
    apply decodeQuantum_rest in Hq.
    rewrite (IH fuel2 rest si'); [reflexivity | |];
      destruct Hq as [-> | Hq]; simpl in *; lia.
Qed.

End Base64Proofs.

(** ** The commit-files controller *)
Module CommitFilesProofs.

Import Eff Protection RepoController CommitFilesSpec.

Lemma decodeActions_fails (actions : list CommitFileAction) (a : CommitFileAction) :
  In a actions -> failsToDecode a -> exists err, decodeActions actions = inl err.
Proof.
  intros Hin [Henc [offset Hdec]].
  induction actions as [|x actions IH]; simpl in *; [contradiction|].
  destruct Hin as [-> | Hin].
  - unfold decodeAction. rewrite Henc, Hdec. eexists. reflexivity.
  - destruct (decodeAction x) as [err|x']; [eexists; reflexivity|].
    destruct (IH Hin) as [err ->]. eexists. reflexivity.
Qed.

Lemma decodeActions_passes (actions : list CommitFileAction)
      (out : list RPCCommitFileAction) :
  decodeActions actions = inr out -> Forall2 passedThrough actions out.
Proof.
  revert out. induction actions as [|x actions IH]; simpl; intros out H.
  - injection H as <-. constructor.
  - destruct (decodeAction x) as [err|x'] eqn:Hx; [discriminate|].
    destruct (decodeActions actions) as [err|more]; [discriminate|].
    injection H as <-. constructor; [|apply IH; reflexivity].
    unfold passedThrough. intros Henc. unfold decodeAction in Hx.
    destruct (Encoding x); try congruence; injection Hx as <-; reflexivity.
Qed.

Ltac next_answer :=
  match goal with
  | |- context [match ?x with _ => _ end] =>
      lazymatch x with
      | context [match _ with _ => _ end] => fail
      | _ => destruct x eqn:?
      end
  | |- context [if ?x then _ else _] =>
      lazymatch x with
      | context [match _ with _ => _ end] => fail
      | context [if _ then _ else _] => fail
      | _ => destruct x eqn:?
      end
  end.

Ltac run_commit :=
  unfold CommitFiles, checkCanPush, run, exitIf, check, call, exit, pure, bind;
  repeat (cbn -[IsCritical decodeActions]; try next_answer).

(** C8 (amended): a request with a base64 action whose payload does not
    decode never reaches the git write, and CommitFiles returns an error
    for it unless the push is blocked beforehand by critical protection
    violations, which are then returned with a nil error. Whenever the git
    write is made, the payload of every action whose encoding is utf8 or
    unset is handed to it byte for byte. *)
Theorem bad_base64_payload_stops_commit
  (env : Env) (session : Session) (repoRef : string) (i : CommitFilesOptions) :
  (forall a,
      In a (Actions i) -> failsToDecode a ->
      noGitWrite (fst (CommitFiles env session repoRef i))
      /\ ((exists err, snd (snd (CommitFiles env session repoRef i)) = Some err)
          \/ (snd (snd (CommitFiles env session repoRef i)) = None
              /\ IsCritical (RuleViolationsOut (fst (snd (CommitFiles env session repoRef i))))
                 = true)))
  /\ (forall p,
         In (GitCommitFiles p) (fst (CommitFiles env session repoRef i)) ->
         Forall2 passedThrough (Actions i) (CFActions p)).
Proof.
  split.
  - intros a Hin Hfail.
    destruct (decodeActions_fails _ _ Hin Hfail) as [err Herr].
    clear Hin Hfail. revert Herr.
    run_commit; intros Herr;
      try congruence;
      (split;
       [ repeat constructor
       | first [ left; eexists; reflexivity
               | right; split; [reflexivity | assumption] ] ]).
  - run_commit; intros p Hin; simpl in Hin;
      repeat (destruct Hin as [Hin|Hin];
              [first [ discriminate Hin
                     | inversion Hin; subst; simpl;
                       apply decodeActions_passes; assumption ] |]);
      contradiction.
Qed.

Lemma bad_base64_payload_stops_commit_witness :
  noGitWrite
    (fst (CommitFiles (CommitFilesSamples.envOf (MergeSamples.rulesWith []))
            MergeSamples.session "space/target"
            (CommitFilesSamples.commitOn "main"
               [CommitFilesSamples.plainText; CommitFilesSamples.badBase64])))
  /\ Forall2 passedThrough [CommitFilesSamples.plainText]
       [{| RPCAction := "CREATE"; RPCPath := "b.txt"; RPCPayload := "hello = world";
           RPCSHA := "" |}].
Proof.
  destruct (bad_base64_payload_stops_commit
              (CommitFilesSamples.envOf (MergeSamples.rulesWith []))
              MergeSamples.session "space/target"
              (CommitFilesSamples.commitOn "main"
                 [CommitFilesSamples.plainText; CommitFilesSamples.badBase64]))
    as [Hbad _].
  destruct (bad_base64_payload_stops_commit
              (CommitFilesSamples.envOf (MergeSamples.rulesWith []))
              MergeSamples.session "space/target"
              (CommitFilesSamples.commitOn "main" [CommitFilesSamples.plainText]))
    as [_ Hpass].
  split.
  - apply (Hbad CommitFilesSamples.badBase64).
    + right. left. reflexivity.
    + split; [reflexivity | exists 0%Z; reflexivity].
  - apply (Hpass {| CFWriteParams :=
                      {| Actor := MergeSamples.identityOf ProtectionSamples.alice;
                         RepoUID := "target-git-uid";
                         EnvVars := {[ "GIT_HOOK_REPO_ID" := "1" ]} |};
                    CFTitle := "Update"; CFMessage := ""; CFBranch := "main";
                    CFNewBranch := "";
                    CFActions := [{| RPCAction := "CREATE"; RPCPath := "b.txt";
                                     RPCPayload := "hello = world"; RPCSHA := "" |}];
                    CFCommitter := MergeSamples.identityOf MergeSamples.systemPrincipal;
                    CFCommitterDate := 1700000000000;
                    CFAuthor := MergeSamples.identityOf ProtectionSamples.alice;
                    CFAuthorDate := 1700000000000 |}).
    vm_compute. repeat (first [left; reflexivity | right]).
Defined.

(** C8 as stated fails on two accounts: a push that the protection rules
    block returns the violations with a nil error although a payload does
    not decode; and when the decoding is reached, the error returned is a
    plain wrapped decode error, neither a bad request nor an
    InvalidArgument status. *)
Lemma bad_base64_payload_not_invalid_argument :
  ~ badPayloadIsInvalidArgument
      (CommitFilesSamples.envOf (MergeSamples.rulesWith MergeSamples.criticalViolations))
      MergeSamples.session "space/target"
      (CommitFilesSamples.commitOn "main" [CommitFilesSamples.badBase64])
  /\ ~ badPayloadIsInvalidArgument
         (CommitFilesSamples.envOf (MergeSamples.rulesWith []))
         MergeSamples.session "space/target"
         (CommitFilesSamples.commitOn "main" [CommitFilesSamples.badBase64]).
Proof.
  split; intros Hstated;
    destruct (Hstated CommitFilesSamples.badBase64) as [[err [Herr Hclass]] _];
    try (left; reflexivity);
    try (split; [reflexivity | exists 0%Z; reflexivity]).
  - vm_compute in Herr. discriminate Herr.
  - vm_compute in Herr. injection Herr as <-. discriminate Hclass.
Qed.

End CommitFilesProofs.
